(** * The search aggregator of the Conversational Knowledge Bot

    A shallow embedding of [search_web] (src/app.py, inside
    [create_search_tool]) and the properties of its digest: cross-phase
    deduplication, the conditional year-qualified retry, section layout,
    hit formatting and the error behaviour at the tool boundary.

    Modelling conventions.
    - A Python [str] is a [str]: a sequence of Unicode code points, each
      an [N].  [s[:n]] is [slice_to n s], [a in b] on strings is
      [contains a b], [sep.join l] is [join sep l], [len(s)] is [len s].
      A literal between double quotes stands for the code points its
      UTF-8 text encodes.
    - A search hit is the [dict[str, str]] the backend hands back: a
      [gmap str str].  [r.get(k, '')] is [get r k].
    - [seen_content] is a [gset str]; [output] is a [list str] that
      grows at its end.
    - The backend ([DDGS]) is consulted through [news] and [text]; a call
      either returns a list of hits or raises.  Exceptions are the
      instances of Python's [Exception], which is what every [except]
      clause of [search_web] catches.
    - [output], [seen_content] and the log of backend calls live in the
      state of a small state-and-exception monad, so that what a [try]
      block did before it raised is still there in its handler. *)

From Stdlib Require Import ZArith List DecimalString.
From Stdlib.Strings Require Import Byte Ascii String.
From stdpp Require Import base option list gmap countable strings.

Set Warnings "-clear-no-such-hyp".

(** ** Python strings *)

(** A string is its code points, first to last. *)
Inductive str : Type :=
| EmptyStr
| Str (c : N) (s : str).

(** The code points of a UTF-8 text; a sequence cut short stays as it is. *)
Fixpoint utf8_decode (bs : list N) : str :=
  match bs with
  | [] => EmptyStr
  | b :: bs' =>
      if (b <? 192)%N then Str b (utf8_decode bs')
      else if (b <? 224)%N then
        match bs' with
        | c1 :: r => Str ((b - 192) * 64 + (c1 - 128)) (utf8_decode r)
        | _ => Str b EmptyStr
        end
      else if (b <? 240)%N then
        match bs' with
        | c1 :: c2 :: r =>
            Str ((b - 224) * 4096 + (c1 - 128) * 64 + (c2 - 128))
                (utf8_decode r)
        | _ => Str b EmptyStr
        end
      else
        match bs' with
        | c1 :: c2 :: c3 :: r =>
            Str ((b - 240) * 262144 + (c1 - 128) * 4096 + (c2 - 128) * 64
                 + (c3 - 128))
                (utf8_decode r)
        | _ => Str b EmptyStr
        end
  end.

Definition N_byte (n : N) : byte := default x00 (Byte.of_nat (N.to_nat n)).

(** The UTF-8 text of a string. *)
Fixpoint utf8_encode (s : str) : list byte :=
  match s with
  | EmptyStr => []
  | Str c s' =>
      (if (c <? 128)%N then [N_byte c]
       else if (c <? 2048)%N then
         [N_byte (192 + c / 64); N_byte (128 + c mod 64)]
       else if (c <? 65536)%N then
         [N_byte (224 + c / 4096); N_byte (128 + (c / 64) mod 64);
          N_byte (128 + c mod 64)]
       else
         [N_byte (240 + c / 262144); N_byte (128 + (c / 4096) mod 64);
          N_byte (128 + (c / 64) mod 64); N_byte (128 + c mod 64)])
      ++ utf8_encode s'
  end.

Definition str_of_bytes (bs : list byte) : str :=
  utf8_decode ((λ b, N.of_nat (Byte.to_nat b)) <$> bs).

Declare Scope py_scope.
Delimit Scope py_scope with py.
Bind Scope py_scope with str.
String Notation str str_of_bytes utf8_encode : py_scope.
Local Open Scope py_scope.

#[global] Instance str_eq_dec : EqDecision str.
Proof. solve_decision. Defined.

Fixpoint chars (s : str) : list N :=
  match s with
  | EmptyStr => []
  | Str c s' => c :: chars s'
  end.

Fixpoint of_chars (l : list N) : str :=
  match l with
  | [] => EmptyStr
  | c :: l' => Str c (of_chars l')
  end.

#[global] Instance str_countable : Countable str.
Proof.
  apply (inj_countable' chars of_chars).
  intros s. induction s as [|c s IH]; cbn; congruence.
Defined.

(** [s + t] *)
Fixpoint append (s t : str) : str :=
  match s with
  | EmptyStr => t
  | Str c s' => Str c (append s' t)
  end.
Infix "++" := append (right associativity, at level 60) : py_scope.
Arguments append : simpl never.

(** [len(s)] *)
Fixpoint len (s : str) : nat :=
  match s with
  | EmptyStr => 0
  | Str _ s' => S (len s')
  end.

(** [s[:n]]: the first [n] code points, all of [s] when it has fewer. *)
Fixpoint slice_to (n : nat) (s : str) : str :=
  match n, s with
  | S n', Str c s' => Str c (slice_to n' s')
  | _, _ => EmptyStr
  end.

(** [hay.startswith(needle)] *)
Fixpoint is_prefix (needle hay : str) {struct hay} : bool :=
  match needle with
  | EmptyStr => true
  | Str a needle' =>
      match hay with
      | EmptyStr => false
      | Str b hay' =>
          match N.eq_dec a b with
          | left _ => is_prefix needle' hay'
          | right _ => false
          end
      end
  end.

(** [sep.join(l)] *)
Fixpoint join (sep : str) (l : list str) : str :=
  match l with
  | [] => EmptyStr
  | [x] => x
  | x :: xs => x ++ sep ++ join sep xs
  end.

(** The string of a text of digits and signs. *)
Fixpoint of_ascii_string (s : string) : str :=
  match s with
  | EmptyString => EmptyStr
  | String c s' => Str (N_of_ascii c) (of_ascii_string s')
  end.

(** ** Strings as the code uses them *)

(** [str(n)] for a Python [int]. *)
Definition str_int (n : Z) : str :=
  of_ascii_string (NilZero.string_of_int (Z.to_int n)).

(** [needle in hay] *)
Fixpoint contains (needle hay : str) : bool :=
  is_prefix needle hay ||
  match hay with
  | EmptyStr => false
  | Str _ hay' => contains needle hay'
  end.

(** Truth value of a string: non-empty. *)
Definition truthy (s : str) : bool :=
  match s with EmptyStr => false | Str _ _ => true end.

(** The line feed and the separator of [join]. *)
Definition nl : str := Str 10 EmptyStr.
Definition blank : str := nl ++ nl.

(** ** Hits, backend, exceptions *)

Abbreviation hit := (gmap str str).

(** [r.get(k, '')] *)
Definition get (r : hit) (k : str) : str := default "" (r !! k).

(** An instance of [Exception]; [str_exc e] is [str(e)]. *)
Record Exception := mkException { str_exc : str }.

Inductive result (A : Type) : Type :=
| Ok (a : A)
| Raised (e : Exception).
Arguments Ok {A} a.
Arguments Raised {A} e.

(** The two search modes of the backend object. *)
Record DDGS := mkDDGS {
  news : str → nat → result (list hit);
  text : str → nat → result (list hit)
}.

(** What lies outside [search_web]: the module constant [CURRENT_YEAR] and
    the outcome of [DDGS()] entering its [with] block. *)
Record world := mkWorld {
  CURRENT_YEAR : Z;
  DDGS_new : result DDGS
}.

Inductive call : Type :=
| CallNews (query : str) (max_results : nat)
| CallText (query : str) (max_results : nat).

(** ** The state of one invocation *)

Record state := mkState {
  output : list str;
  seen_content : gset str;
  calls : list call
}.

Definition initial : state := mkState [] ∅ [].

Definition M (A : Type) : Type := state → result A * state.

#[global] Instance M_ret : MRet M := λ A a st, (Ok a, st).
#[global] Instance M_bind : MBind M := λ A B f m st,
  match m st with
  | (Ok a, st') => f a st'
  | (Raised e, st') => (Raised e, st')
  end.

(** [try: m except Exception as e: h e] *)
Definition try_except {A} (m : M A) (h : Exception → M A) : M A := λ st,
  match m st with
  | (Ok a, st') => (Ok a, st')
  | (Raised e, st') => h e st'
  end.

(** [pass] *)
Definition pass : M unit := mret ().

Definition lift {A} (r : result A) : M A := λ st, (r, st).

Definition get_output : M (list str) := λ st, (Ok (output st), st).
Definition get_seen : M (gset str) := λ st, (Ok (seen_content st), st).

(** [output.append(s)] *)
Definition output_append (s : str) : M unit := λ st,
  (Ok (), mkState (output st ++ [s]) (seen_content st) (calls st)).

(** [seen_content.add(k)] *)
Definition seen_add (k : str) : M unit := λ st,
  (Ok (), mkState (output st) ({[ k ]} ∪ seen_content st) (calls st)).

(** [list(ddgs.news(q, max_results=n))], logged. *)
Definition call_news (ddgs : DDGS) (q : str) (n : nat) : M (list hit) := λ st,
  (news ddgs q n,
   mkState (output st) (seen_content st) (calls st ++ [CallNews q n])).

(** [list(ddgs.text(q, max_results=n))], logged. *)
Definition call_text (ddgs : DDGS) (q : str) (n : nat) : M (list hit) := λ st,
  (text ddgs q n,
   mkState (output st) (seen_content st) (calls st ++ [CallText q n])).

(** [for r in rs: body r] *)
Fixpoint for_each {A} (rs : list A) (body : A → M unit) : M unit :=
  match rs with
  | [] => mret ()
  | r :: rs' => body r ;; for_each rs' body
  end.

(** ** [search_web] *)

(** [body[:100] if body else title] *)
Definition content_key (r : hit) : str :=
  let title := get r "title" in
  let body := get r "body" in
  if truthy body then slice_to 100 body else title.

(** [r.get('date', '')[:10] if r.get('date') else ''] *)
Definition date_of (r : hit) : str :=
  match r !! "date" with
  | Some d => if truthy d then slice_to 10 (get r "date") else ""
  | None => ""
  end.

(** [f"[{date}] ({source}) {title}\n{body}"] *)
Definition format_news (r : hit) : str :=
  "[" ++ date_of r ++ "] (" ++ get r "source" ++ ") " ++ get r "title"
      ++ nl ++ get r "body".

(** [f"{title}\n{body}\nSource: {href}"] *)
Definition format_web (r : hit) : str :=
  get r "title" ++ nl ++ get r "body" ++ nl ++ "Source: " ++ get r "href".

(** [f"[{date}] {title}\n{body}"] *)
Definition format_year (r : hit) : str :=
  "[" ++ date_of r ++ "] " ++ get r "title" ++ nl ++ get r "body".

Definition header_news : str := "=== RECENT NEWS ===".
Definition header_web : str := nl ++ "=== WEB RESULTS ===".
Definition header_year (year : Z) : str :=
  nl ++ "=== " ++ str_int year ++ " SPECIFIC RESULTS ===".

(** The body shared by the three [for] loops: the membership test on
    [seen_content], then the two updates. *)
Definition emit_unseen (format : hit → str) (r : hit) : M unit :=
  seen ← get_seen;
  if bool_decide (content_key r ∈ seen) then pass
  else seen_add (content_key r) ;; output_append (format r).

(** Lines 134-145. *)
Definition news_phase (ddgs : DDGS) (query : str) : M unit :=
  news_results ← call_news ddgs query 5;
  match news_results with
  | [] => pass
  | _ => output_append header_news ;;
         for_each news_results (emit_unseen format_news)
  end.

(** Lines 151-161. *)
Definition web_phase (ddgs : DDGS) (query : str) : M unit :=
  text_results ← call_text ddgs query 5;
  match text_results with
  | [] => pass
  | _ => output_append header_web ;;
         for_each text_results (emit_unseen format_web)
  end.

(** [f"{query} {CURRENT_YEAR}"] *)
Definition year_query (query : str) (year : Z) : str :=
  query ++ " " ++ str_int year.

(** Lines 168-179. *)
Definition year_phase (ddgs : DDGS) (query : str) (year : Z) : M unit :=
  year_results ← call_news ddgs (year_query query year) 3;
  match year_results with
  | [] => pass
  | _ => output_append (header_year year) ;;
         for_each year_results (emit_unseen format_year)
  end.

(** [any(str(CURRENT_YEAR) in str(r) for r in output)] *)
Definition mentions_year (year : Z) (out : list str) : bool :=
  existsb (contains (str_int year)) out.

(** The block under [with DDGS() as ddgs:], lines 131-181. *)
Definition phases (ddgs : DDGS) (query : str) (year : Z) : M unit :=
  try_except (news_phase ddgs query) (λ _, pass) ;;
  try_except (web_phase ddgs query) (λ _, pass) ;;
  out ← get_output;
  if negb (mentions_year year out)
  then try_except (year_phase ddgs query year) (λ _, pass)
  else pass.

Definition not_found (query : str) : str :=
  "No search results found for '" ++ query
    ++ "'. Try rephrasing or adding more context.".

Definition search_error (e : Exception) : str :=
  "Search error: " ++ str_exc e ++ ". Please try a different query.".

(** The whole of [search_web], lines 127-189, as a computation. *)
Definition search_web_M (w : world) (query : str) : M str :=
  try_except
    (ddgs ← lift (DDGS_new w);
     phases ddgs query (CURRENT_YEAR w) ;;
     out ← get_output;
     match out with
     | [] => mret (not_found query)
     | _ => mret (join blank out)
     end)
    (λ e, mret (search_error e)).

(** One invocation: [output = []], [seen_content = set()], no call made. *)
Definition run (w : world) (query : str) : result str * state :=
  search_web_M w query initial.

(** What the caller of the tool observes. *)
Definition search_web (w : world) (query : str) : result str :=
  fst (run w query).

(** The backend calls made, in order. *)
Definition backend_calls (w : world) (query : str) : list call :=
  calls (snd (run w query)).

(** ** A pure reading of the three loops *)

(** The hits a backend call contributes: none when it raised. *)
Definition hits_of (r : result (list hit)) : list hit :=
  match r with
  | Ok rs => rs
  | Raised _ => []
  end.

(** What a [for] loop lets through, given the keys seen before it. *)
Fixpoint fresh_by {A} (key : A → str) (seen : gset str) (l : list A)
  : list A :=
  match l with
  | [] => []
  | a :: l' =>
      if bool_decide (key a ∈ seen) then fresh_by key seen l'
      else a :: fresh_by key ({[ key a ]} ∪ seen) l'
  end.

Definition survivors : gset str → list hit → list hit :=
  fresh_by content_key.

Definition keys (rs : list hit) : gset str :=
  list_to_set (content_key <$> rs).

(** The entries one phase appends: nothing for an empty result list,
    otherwise the header and then the lines of the hits let through. *)
Definition section (header : str) (format : hit → str)
    (raw kept : list hit) : list str :=
  match raw with
  | [] => []
  | _ => header :: (format <$> kept)
  end.

Section Digest.
Variables (year : Z) (ddgs : DDGS) (query : str).

Definition raw_news : list hit := hits_of (news ddgs query 5).
Definition raw_web : list hit := hits_of (text ddgs query 5).
Definition raw_year : list hit :=
  hits_of (news ddgs (year_query query year) 3).

Definition kept_news : list hit := survivors ∅ raw_news.
Definition kept_web : list hit := survivors (keys raw_news) raw_web.

(** The first two [try] blocks on their own, from the initial state. *)
Definition two_phases : M unit :=
  try_except (news_phase ddgs query) (λ _, pass) ;;
  try_except (web_phase ddgs query) (λ _, pass).

(** [output] as the test of line 166 finds it. *)
Definition output_so_far : list str :=
  output (snd (two_phases initial)).

(** Whether the third backend call is made. *)
Definition year_phase_runs : bool :=
  negb (mentions_year year output_so_far).

Definition kept_year : list hit :=
  if year_phase_runs
  then survivors (keys raw_web ∪ keys raw_news) raw_year
  else [].

Definition section_news : list str :=
  section header_news format_news raw_news kept_news.
Definition section_web : list str :=
  section header_web format_web raw_web kept_web.
Definition section_year : list str :=
  if year_phase_runs
  then section (header_year year) format_year raw_year kept_year
  else [].

(** The final [output], [seen_content] and call log. *)
Definition digest_entries : list str :=
  section_news ++ section_web ++ section_year.
Definition final_seen : gset str :=
  if year_phase_runs
  then keys raw_year ∪ (keys raw_web ∪ keys raw_news)
  else keys raw_web ∪ keys raw_news.
Definition final_calls : list call :=
  [CallNews query 5; CallText query 5]
    ++ (if year_phase_runs then [CallNews (year_query query year) 3] else []).

(** The string handed back when the backend object could be built. *)
Definition digest : str :=
  match digest_entries with
  | [] => not_found query
  | _ => join blank digest_entries
  end.
End Digest.

(** ** Hits in processing order *)

Inductive phase : Type := NEWS | WEB | YEAR.

Definition entry : Type := phase * hit.

Definition entry_key (e : entry) : str := content_key e.2.

(** The line a phase appends for a hit it lets through. *)
Definition format_entry (e : entry) : str :=
  match e.1 with
  | NEWS => format_news e.2
  | WEB => format_web e.2
  | YEAR => format_year e.2
  end.

(** Every hit the loops iterate over, in the order they meet it: the news
    results, the web results, and the year-qualified results when that
    call is made. *)
Definition processed (year : Z) (ddgs : DDGS) (query : str) : list entry :=
  (pair NEWS <$> raw_news ddgs query)
    ++ (pair WEB <$> raw_web ddgs query)
    ++ (if year_phase_runs year ddgs query
        then pair YEAR <$> raw_year year ddgs query else []).

(** The hits whose line is appended to [output], by phase. *)
Definition emitted (year : Z) (ddgs : DDGS) (query : str) : list entry :=
  (pair NEWS <$> kept_news ddgs query)
    ++ (pair WEB <$> kept_web ddgs query)
    ++ (pair YEAR <$> kept_year year ddgs query).

(** [e] stands at position [i] of [l] and no earlier position of [l] holds
    an entry with the same key. *)
Definition first_with_key {A} (key : A → str) (l : list A) (i : nat) (a : A)
  : Prop :=
  l !! i = Some a ∧ ∀ j b, j < i → l !! j = Some b → key b ≠ key a.

(** ** Backends to compare and to test with *)

(** A backend call that contributes nothing: it raised, or it returned
    the empty list. *)
Definition no_hits (r : result (list hit)) : Prop :=
  match r with
  | Ok rs => rs = []
  | Raised _ => True
  end.

(** What the backend answers to a logged call. *)
Definition response (ddgs : DDGS) (c : call) : result (list hit) :=
  match c with
  | CallNews q n => news ddgs q n
  | CallText q n => text ddgs q n
  end.

(** [ddgs] with the answer to one [news] call replaced. *)
Definition set_news (q : str) (n : nat) (r : result (list hit))
    (ddgs : DDGS) : DDGS :=
  mkDDGS (λ q' n', if decide (q' = q ∧ n' = n) then r else news ddgs q' n')
         (text ddgs).

(** [ddgs] with the answer to one [text] call replaced. *)
Definition set_text (q : str) (n : nat) (r : result (list hit))
    (ddgs : DDGS) : DDGS :=
  mkDDGS (news ddgs)
         (λ q' n', if decide (q' = q ∧ n' = n) then r else text ddgs q' n').

(** The assembly as the specification words it: only sections with at
    least one hit line, each the header line, [gap], and the hit lines
    joined by blank lines; sections joined by exactly one blank line.
    [gap] is what stands between a header line and the first hit line,
    which the wording leaves open. *)
Definition spec_section (gap header : str) (lines : list str)
  : list str :=
  match lines with
  | [] => []
  | _ => [header ++ gap ++ join blank lines]
  end.

Definition spec_digest (gap : str) (year : Z) (ddgs : DDGS)
    (query : str) : str :=
  join blank
    (spec_section gap "=== RECENT NEWS ==="
       (format_news <$> kept_news ddgs query)
     ++ spec_section gap "=== WEB RESULTS ==="
          (format_web <$> kept_web ddgs query)
     ++ spec_section gap ("=== " ++ str_int year ++ " SPECIFIC RESULTS ===")
          (format_year <$> kept_year year ddgs query)).

(** The text of one section of the digest as the code builds it. *)
Definition section_text (sec : list str) : list str :=
  match sec with
  | [] => []
  | _ => [join blank sec]
  end.

Module Samples.
Definition alpha : hit :=
  {[ "title" := "Alpha"; "body" := "first story"; "source" := "wire";
     "date" := "2024-05-17T08:30:00+00:00" ]}.
(** Same body as [alpha], another title. *)
Definition alpha_again : hit :=
  {[ "title" := "Alpha, reposted"; "body" := "first story";
     "href" := "https://example.org/a" ]}.
Definition beta : hit :=
  {[ "title" := "Beta"; "body" := "second story";
     "href" := "https://example.org/b" ]}.
Definition undated : hit :=
  {[ "title" := "Gamma"; "body" := "third story" ]}.

(** Answers nothing to every call. *)
Definition silent : DDGS := mkDDGS (λ _ _, Ok []) (λ _ _, Ok []).
(** One news hit, and the same story again from the web search. *)
Definition echo : DDGS :=
  mkDDGS (λ _ _, Ok [alpha]) (λ _ _, Ok [alpha_again]).
(** One news hit, one other web hit; the year-qualified news search
    returns the news hit again. *)
Definition mixed : DDGS := mkDDGS (λ _ _, Ok [alpha]) (λ _ _, Ok [beta]).
(** The news search fails. *)
Definition news_down : DDGS :=
  mkDDGS (λ _ _, Raised (mkException "timeout")) (λ _ _, Ok [beta]).
End Samples.

(** A backend that hands back no more hits than [max_results] asks for. *)
Definition honours_max_results (ddgs : DDGS) : Prop :=
  ∀ q n rs,
    (news ddgs q n = Ok rs → (List.length rs ≤ n)%nat)
    ∧ (text ddgs q n = Ok rs → (List.length rs ≤ n)%nat).

Module Leads.
(** One hundred characters. *)
Definition lead : str :=
  "The city council voted on Tuesday to approve the new transit plan after months of public hearings an".
(** Two stories that open alike and go on differently. *)
Definition morning : hit :=
  {[ "title" := "Transit plan approved";
     "body" := lead ++ "d a final amendment on fares." ]}.
Definition evening : hit :=
  {[ "title" := "Council backs transit plan";
     "body" := lead ++ "d protests outside the hall." ]}.

(** The digits of the year as a road number. *)
Definition road : hit :=
  {[ "title" := "Route 2026 closed for repairs"; "body" := "Expect delays." ]}.
Definition roadworks : DDGS := mkDDGS (λ _ _, Ok [road]) (λ _ _, Ok []).

(** Ninety-six characters, two of them apostrophes beyond ASCII, and two
    stories that part three characters later. *)
Definition curly : str :=
  "The mayor’s office said the city’s new transit plan was approved after months of public hearings".
Definition first_take : hit :=
  {[ "title" := "Plan approved"; "body" := curly ++ ", March vote." ]}.
Definition second_take : hit :=
  {[ "title" := "Plan approved"; "body" := curly ++ ", April vote." ]}.
Definition near_twins : DDGS :=
  mkDDGS (λ _ _, Ok [first_take; second_take]) (λ _ _, Ok []).

(** Dates that are not ASCII. *)
Definition kanji_dated : hit :=
  {[ "title" := "Festival"; "body" := "Lanterns on the river.";
     "source" := "wire"; "date" := "2024年5月17日 08:30" ]}.
Definition kanji_year_last : hit :=
  {[ "title" := "Festival"; "body" := "Lanterns on the river.";
     "source" := "wire"; "date" := "5月17日 2026年" ]}.
Definition festival : DDGS :=
  mkDDGS (λ _ _, Ok [kanji_year_last]) (λ _ _, Ok []).

(** Cuts its answers to the number asked for. *)
Definition obedient : DDGS :=
  mkDDGS (λ _ n, Ok (take n [morning; evening; road]))
         (λ _ n, Ok (take n [Samples.beta])).
End Leads.

(** ** The API key *)

(** Where a key can come from: [st.secrets], whose use raises when there
    is no secrets file, and the process environment. *)
Record settings := mkSettings {
  secrets : result (gmap str str);
  environ : gmap str str
}.

(** [get_openai_api_key], lines 104-116; [None] is Python's [None]. *)
Definition get_openai_api_key (c : settings) : option str :=
  let from_secrets :=
    match secrets c with
    | Ok s => s !! "OPENAI_API_KEY"
    | Raised _ => None
    end in
  match from_secrets with
  | Some v => Some v
  | None =>
      match environ c !! "OPENAI_API_KEY" with
      | Some api_key => if truthy api_key then Some api_key else None
      | None => None
      end
  end.

(** Truth value of what [get_openai_api_key] returns. *)
Definition key_truthy (k : option str) : bool :=
  match k with
  | Some v => truthy v
  | None => false
  end.

(** ** The chat page *)

(** [str.lower()] is the interpreter's, with its Unicode case tables, and
    comes in with the run as [str_lower].  What is used of it, and only
    where a statement says so, is [lowers_ascii_in_place]: it turns the
    letters A-Z into a-z and leaves every other character below 128 as
    it is, wherever they stand in the text. *)

(** The lower-case form of a text as far as A-Z go. *)
Definition ascii_lower_char (c : N) : N :=
  if ((65 <=? c) && (c <=? 90))%N then (c + 32)%N else c.

Fixpoint ascii_lower (s : str) : str :=
  match s with
  | EmptyStr => EmptyStr
  | Str c s' => Str (ascii_lower_char c) (ascii_lower s')
  end.

Fixpoint all_ascii (s : str) : bool :=
  match s with
  | EmptyStr => true
  | Str c s' => (c <? 128)%N && all_ascii s'
  end.

Definition lowers_ascii_in_place (lower : str → str) : Prop :=
  ∀ s v t, all_ascii v = true →
    ∃ s' t', lower (s ++ v ++ t) = s' ++ ascii_lower v ++ t'.

(** An entry of [st.session_state.messages]. *)
Record message := mkMessage { role : str; content : str }.

(** The executor [initialize_agent] builds (lines 198-237): a fixed
    model, prompt, tool list and an empty memory around the key it is
    given.  Its replies are the framework's and come in as [invoke]. *)
Record AgentExecutor := mkAgent { agent_api_key : str }.

(** [st.session_state]: each of the two entries may be missing. *)
Record session := mkSession {
  messages : option (list message);
  agent : option AgentExecutor
}.

(** What a script run does that can be seen from outside: the widgets it
    draws, without their fixed texts, and its calls into the framework. *)
Inductive event : Type :=
| Warning
| Info
| TextInput
| Spinner (label : str)
| ChatMessage (role content : str)
| ChatInput
| SidebarHeader
| SidebarMarkdown
| Divider
| Button
| Caption
| Initialize (api_key : str)
| Invoke (a : AgentExecutor) (input : str)
| MemoryClear (a : AgentExecutor).

(** What one run of the script finds: settings, the widgets' values,
    the framework's behaviour and the interpreter's [str.lower].
    [text_input] is the empty string while nothing is typed, [chat_input]
    is [None] while nothing is submitted. *)
Record script_run := mkRun {
  run_settings : settings;
  text_input : str;
  chat_input : option str;
  button : bool;
  initialize_fails : str → option Exception;
  invoke : AgentExecutor → str → result (gmap str str);
  str_lower : str → str
}.

(** How a piece of the script ends: it goes on, [st.stop()], [st.rerun()]
    (neither of which an [except Exception] catches), or an exception. *)
Inductive flow (A : Type) : Type :=
| Next (a : A)
| Stopped
| Rerun
| Failed (e : Exception).
Arguments Next {A} a.
Arguments Stopped {A}.
Arguments Rerun {A}.
Arguments Failed {A} e.

Record page := mkPage {
  session_state : session;
  shown : list event
}.

(** A piece of the script, run from top to bottom without a rerun being
    requested from outside while it executes. *)
Definition UI (A : Type) : Type := page → flow A * page.

#[global] Instance UI_ret : MRet UI := λ A a p, (Next a, p).
#[global] Instance UI_bind : MBind UI := λ A B f m p,
  match m p with
  | (Next a, p') => f a p'
  | (Stopped, p') => (Stopped, p')
  | (Rerun, p') => (Rerun, p')
  | (Failed e, p') => (Failed e, p')
  end.

(** [try: m except Exception as e: h e] *)
Definition ui_try {A} (m : UI A) (h : Exception → UI A) : UI A := λ p,
  match m p with
  | (Failed e, p') => h e p'
  | other => other
  end.

Definition ui_pass : UI unit := mret ().
Definition raise {A} (e : Exception) : UI A := λ p, (Failed e, p).
Definition stop {A} : UI A := λ p, (Stopped, p).
Definition rerun {A} : UI A := λ p, (Rerun, p).
Definition show (e : event) : UI unit := λ p,
  (Next (), mkPage (session_state p) (shown p ++ [e])).

(** The error of reading a missing entry of [st.session_state]; its text
    is not modelled. *)
Definition AttributeError : Exception := mkException "AttributeError".

(** ["agent" in st.session_state] *)
Definition has_agent : UI bool := λ p,
  (Next (match agent (session_state p) with Some _ => true | None => false end),
   p).

(** [st.session_state.agent] *)
Definition get_agent : UI AgentExecutor := λ p,
  match agent (session_state p) with
  | Some a => (Next a, p)
  | None => (Failed AttributeError, p)
  end.

(** [st.session_state.agent = a] *)
Definition set_agent (a : AgentExecutor) : UI unit := λ p,
  (Next (), mkPage (mkSession (messages (session_state p)) (Some a)) (shown p)).

(** [del st.session_state.agent] *)
Definition del_agent : UI unit := λ p,
  match agent (session_state p) with
  | Some _ =>
      (Next (), mkPage (mkSession (messages (session_state p)) None) (shown p))
  | None => (Failed AttributeError, p)
  end.

(** ["messages" in st.session_state] *)
Definition has_messages : UI bool := λ p,
  (Next (match messages (session_state p) with Some _ => true | None => false end),
   p).

(** [st.session_state.messages] *)
Definition get_messages : UI (list message) := λ p,
  match messages (session_state p) with
  | Some l => (Next l, p)
  | None => (Failed AttributeError, p)
  end.

(** [st.session_state.messages = l] *)
Definition set_messages (l : list message) : UI unit := λ p,
  (Next (), mkPage (mkSession (Some l) (agent (session_state p))) (shown p)).

(** [st.session_state.messages.append(m)] *)
Definition append_message (m : message) : UI unit :=
  l ← get_messages; set_messages (l ++ [m]).

(** [for x in xs: body x] *)
Fixpoint ui_for_each {A} (xs : list A) (body : A → UI unit) : UI unit :=
  match xs with
  | [] => mret ()
  | x :: xs' => body x ;; ui_for_each xs' body
  end.

(** [initialize_agent(api_key)], lines 198-237. *)
Definition initialize_agent (w : script_run) (api_key : str)
  : UI AgentExecutor :=
  show (Initialize api_key) ;;
  match initialize_fails w api_key with
  | Some e => raise e
  | None => mret (mkAgent api_key)
  end.

(** [agent_executor.invoke({"input": user_input})] *)
Definition agent_invoke (w : script_run) (agent_executor : AgentExecutor)
    (user_input : str) : UI (gmap str str) :=
  show (Invoke agent_executor user_input) ;;
  match invoke w agent_executor user_input with
  | Ok response => mret response
  | Raised e => raise e
  end.

Definition apology : str :=
  "I apologize, but I couldn't generate a response.".
Definition high_demand : str :=
  "I'm currently experiencing high demand. Please try again in a moment.".
Definition key_error : str :=
  "API key error. Please refresh the page after updating your API key.".
Definition other_error : str :=
  "I encountered an error while processing your request. Please try again.".

(** [return s] *)
Definition ui_return (s : str) : UI str := mret s.

(** [get_agent_response], lines 240-260. *)
Definition get_agent_response (w : script_run) (agent_executor : AgentExecutor)
    (user_input : str) : UI str :=
  ui_try
    (response ← agent_invoke w agent_executor user_input;
     ui_return (default apology (response !! "output")))
    (λ e,
       let error_msg := str_exc e in
       if contains "rate limit" (str_lower w error_msg) then ui_return high_demand
       else if contains "api key" (str_lower w error_msg)
               || contains "authentication" (str_lower w error_msg)
       then (present ← has_agent;
             if (present : bool) then del_agent else ui_pass) ;;
            ui_return key_error
       else ui_return other_error).

(** Lines 269-282: no usable key was found. *)
Definition ask_for_key (w : script_run) : UI str :=
  show Warning ;;
  show Info ;;
  show TextInput ;;
  let manual_key := text_input w in
  if truthy manual_key then ui_return manual_key else stop.

(** Lines 300-318: a message was submitted. *)
Definition answer (w : script_run) (user_input : str) : UI unit :=
  append_message (mkMessage "user" user_input) ;;
  show (ChatMessage "user" user_input) ;;
  show (Spinner "Thinking...") ;;
  a ← get_agent;
  response ← get_agent_response w a user_input;
  show (ChatMessage "assistant" response) ;;
  append_message (mkMessage "assistant" response).

(** Lines 337-342: the button was pressed. *)
Definition clear_chat_history : UI unit :=
  set_messages [] ;;
  (present ← has_agent;
   if (present : bool) then a ← get_agent; show (MemoryClear a) else ui_pass) ;;
  rerun.

(** [main] from line 284 on, with the key it goes on with. *)
Definition main_with_key (w : script_run) (api_key : str) : UI unit :=
  (present ← has_messages;
   if (present : bool) then ui_pass else set_messages []) ;;
  (present ← has_agent;
   if (present : bool) then ui_pass
   else show (Spinner "Initializing the knowledge bot...") ;;
        a ← initialize_agent w api_key;
        set_agent a) ;;
  (l ← get_messages;
   ui_for_each l (λ message, show (ChatMessage (role message) (content message)))) ;;
  show ChatInput ;;
  match chat_input w with
  | Some user_input =>
      if truthy user_input then answer w user_input else ui_pass
  | None => ui_pass
  end ;;
  show SidebarHeader ;;
  show SidebarMarkdown ;;
  show Divider ;;
  show Button ;;
  (if button w then clear_chat_history else ui_pass) ;;
  show Divider ;;
  show Caption.

(** [main], lines 263-345. *)
Definition main (w : script_run) : UI unit :=
  let api_key := get_openai_api_key (run_settings w) in
  api_key ← (if key_truthy api_key then ui_return (default "" api_key)
             else ask_for_key w);
  main_with_key w api_key.

(** A fresh browser session, and the page before a run draws anything. *)
Definition new_session : session := mkSession None None.
Definition blank_page (s : session) : page := mkPage s [].

(** The session a run leaves behind; it outlives the run however the run
    ends. *)
Definition session_after (w : script_run) (s : session) : session :=
  session_state (snd (main w (blank_page s))).

(** The sessions left by a succession of runs. *)
Fixpoint session_after_all (ws : list script_run) (s : session) : session :=
  match ws with
  | [] => s
  | w :: ws' => session_after_all ws' (session_after w s)
  end.


(** A history made of exchanges: a user message, then the assistant's. *)
Fixpoint exchanges (l : list message) : Prop :=
  match l with
  | [] => True
  | u :: a :: l' => role u = "user" ∧ role a = "assistant" ∧ exchanges l'
  | _ => False
  end.

(** Some spelling of [needle], with its letters a-z in whatever case,
    occurs in [msg]. *)
Definition mentions (needle msg : str) : Prop :=
  ∃ v, ascii_lower v = ascii_lower needle ∧ contains v msg = true.

(** ** A run of the script, read as a function *)

(** The reply shown for what [invoke] did. *)
Definition reply_to (lower : str → str) (r : result (gmap str str)) : str :=
  match r with
  | Ok response => default apology (response !! "output")
  | Raised e =>
      if contains "rate limit" (lower (str_exc e)) then high_demand
      else if contains "api key" (lower (str_exc e))
              || contains "authentication" (lower (str_exc e))
      then key_error
      else other_error
  end.

(** Whether the cached executor is thrown away for what [invoke] did. *)
Definition drops_agent (lower : str → str) (r : result (gmap str str))
  : bool :=
  match r with
  | Ok _ => false
  | Raised e =>
      negb (contains "rate limit" (lower (str_exc e)))
      && (contains "api key" (lower (str_exc e))
          || contains "authentication" (lower (str_exc e)))
  end.

Definition draw (m : message) : event := ChatMessage (role m) (content m).

Section Visit.
Variables (w : script_run) (s : session).

(** The key the run goes on with, if it goes on. *)
Definition usable_key : option str :=
  let k := get_openai_api_key (run_settings w) in
  if key_truthy k then k
  else if truthy (text_input w) then Some (text_input w) else None.

Definition asked : list event :=
  if key_truthy (get_openai_api_key (run_settings w)) then []
  else [Warning; Info; TextInput].

Definition history : list message := default [] (messages s).

Definition built (k : str) : list event :=
  match agent s with
  | Some _ => []
  | None => [Spinner "Initializing the knowledge bot..."; Initialize k]
  end.

Definition executor (k : str) : AgentExecutor :=
  default (mkAgent k) (agent s).

(** The message the run answers, if any. *)
Definition submitted : option str :=
  match chat_input w with
  | Some u => if truthy u then Some u else None
  | None => None
  end.

Definition sidebar : list event :=
  [SidebarHeader; SidebarMarkdown; Divider; Button].

(** What [main] does to the page [mkPage s sh] once it has the key. *)
Definition visit_with_key (k : str) (sh : list event) : flow unit * page :=
  match agent s, initialize_fails w k with
  | None, Some e =>
      (Failed e, mkPage (mkSession (Some history) None) (sh ++ built k))
  | _, _ =>
      let a := executor k in
      let drawn : list event :=
        (sh ++ built k ++ (draw <$> history) ++ [ChatInput])%list in
      let r := λ u, invoke w a u in
      let msgs : list message :=
        match submitted with
        | Some u =>
            (history ++ [mkMessage "user" u;
                         mkMessage "assistant" (reply_to (str_lower w) (r u))])%list
        | None => history
        end in
      let ag :=
        match submitted with
        | Some u => if drops_agent (str_lower w) (r u) then None else Some a
        | None => Some a
        end in
      let ev : list event :=
        match submitted with
        | Some u =>
            [ChatMessage "user" u; Spinner "Thinking..."; Invoke a u;
             ChatMessage "assistant" (reply_to (str_lower w) (r u))]
        | None => []
        end in
      if button w
      then (Rerun,
            mkPage (mkSession (Some []) ag)
              (drawn ++ ev ++ sidebar
                 ++ match ag with Some a' => [MemoryClear a'] | None => [] end))
      else (Next (),
            mkPage (mkSession (Some msgs) ag)
              (drawn ++ ev ++ sidebar ++ [Divider; Caption]))
  end.

(** What [main] does to the page [mkPage s sh]. *)
Definition visit (sh : list event) : flow unit * page :=
  match usable_key with
  | None => (Stopped, mkPage s (sh ++ asked))
  | Some k => visit_with_key k (sh ++ asked)
  end.
End Visit.

Module Visits.
(** A valid key in the environment, an empty one in the secrets file. *)
Definition shadowed : settings :=
  mkSettings (Ok {[ "OPENAI_API_KEY" := "" ]}) {[ "OPENAI_API_KEY" := "sk-env" ]}.
Definition from_env : settings :=
  mkSettings (Raised (mkException "no secrets file")) {[ "OPENAI_API_KEY" := "sk-env" ]}.
Definition other_env : settings :=
  mkSettings (Raised (mkException "no secrets file")) {[ "OPENAI_API_KEY" := "sk-new" ]}.

(** The texts of these visits hold no letter beyond A-Z and a-z, on
    which [ascii_lower] is what [str.lower()] does. *)
Definition replies (r : result (gmap str str)) (c : settings)
    (input : option str) (pressed : bool) : script_run :=
  mkRun c "" input pressed (λ _, None) (λ _ _, r) ascii_lower.

Definition fine : result (gmap str str) := Ok {[ "output" := "Hello!" ]}.
Definition throttled : result (gmap str str) :=
  Raised (mkException "Rate Limit reached; check your API key quota").
Definition rejected : result (gmap str str) :=
  Raised (mkException "Incorrect API key provided").

(** The executor cannot be built. *)
Definition broken : script_run :=
  mkRun from_env "" (Some "hi") false
        (λ _, Some (mkException "model not available")) (λ _ _, fine)
        ascii_lower.

(** A session with one exchange, held by an executor built on "sk-env". *)
Definition returning : session :=
  mkSession (Some [mkMessage "user" "hi"; mkMessage "assistant" "Hello!"])
            (Some (mkAgent "sk-env")).
End Visits.

(** ** The loops and the phases, evaluated *)

Lemma bind_run {A B} (m : M A) (f : A → M B) (st : state) :
  (m ≫= f) st
  = match m st with
    | (Ok a, st') => f a st'
    | (Raised e, st') => (Raised e, st')
    end.
Proof. reflexivity. Qed.

Lemma emit_unseen_run (format : hit → str) (r : hit) (st : state) :
  emit_unseen format r st
  = (Ok (),
     if bool_decide (content_key r ∈ seen_content st) then st
     else mkState (output st ++ [format r])
                  ({[ content_key r ]} ∪ seen_content st) (calls st)).
Proof.
  unfold emit_unseen. rewrite bind_run. unfold get_seen.
  case_bool_decide; reflexivity.
Qed.

Lemma for_each_emit_unseen (format : hit → str) (rs : list hit) (st : state) :
  for_each rs (emit_unseen format) st
  = (Ok (), mkState (output st ++ (format <$> survivors (seen_content st) rs))
                    (keys rs ∪ seen_content st) (calls st)).
Proof.
  revert st. induction rs as [|r rs IH]; intros [out seen cs].
  - cbn. f_equal. f_equal; [by rewrite app_nil_r | set_solver].
  - cbn [for_each]. rewrite bind_run, emit_unseen_run, IH.
    unfold survivors, keys.
    cbn [fresh_by fmap list_fmap list_to_set output seen_content calls].
    case_bool_decide as Hin; cbn [output seen_content calls]; f_equal; f_equal.
    + set_solver.
    + by rewrite <- app_assoc.
    + set_solver.
Qed.

Lemma results_block (header : str) (format : hit → str)
    (rs : list hit) (st : state) :
  match rs with
  | [] => pass
  | _ => output_append header ;; for_each rs (emit_unseen format)
  end st
  = (Ok (), mkState (output st
                       ++ section header format rs
                            (survivors (seen_content st) rs))
                    (keys rs ∪ seen_content st) (calls st)).
Proof.
  destruct rs as [|r rs].
  - destruct st as [out seen cs]. cbn. f_equal.
    f_equal; [by rewrite app_nil_r | set_solver].
  - rewrite bind_run. unfold output_append at 1.
    rewrite for_each_emit_unseen. cbn [output seen_content calls section].
    f_equal. f_equal. by rewrite <- app_assoc.
Qed.

Lemma try_news_run (ddgs : DDGS) (q : str) (n : nat) (header : str)
    (format : hit → str) (st : state) :
  try_except
    (rs ← call_news ddgs q n;
     match rs with
     | [] => pass
     | _ => output_append header ;; for_each rs (emit_unseen format)
     end)
    (λ _, pass) st
  = (Ok (),
     mkState (output st
                ++ section header format (hits_of (news ddgs q n))
                     (survivors (seen_content st) (hits_of (news ddgs q n))))
             (keys (hits_of (news ddgs q n)) ∪ seen_content st)
             (calls st ++ [CallNews q n])).
Proof.
  unfold try_except. rewrite bind_run. unfold call_news.
  destruct (news ddgs q n) as [rs|e].
  - rewrite results_block. reflexivity.
  - destruct st as [out seen cs]. cbn. f_equal.
    f_equal; [by rewrite app_nil_r | set_solver].
Qed.

Lemma try_text_run (ddgs : DDGS) (q : str) (n : nat) (header : str)
    (format : hit → str) (st : state) :
  try_except
    (rs ← call_text ddgs q n;
     match rs with
     | [] => pass
     | _ => output_append header ;; for_each rs (emit_unseen format)
     end)
    (λ _, pass) st
  = (Ok (),
     mkState (output st
                ++ section header format (hits_of (text ddgs q n))
                     (survivors (seen_content st) (hits_of (text ddgs q n))))
             (keys (hits_of (text ddgs q n)) ∪ seen_content st)
             (calls st ++ [CallText q n])).
Proof.
  unfold try_except. rewrite bind_run. unfold call_text.
  destruct (text ddgs q n) as [rs|e].
  - rewrite results_block. reflexivity.
  - destruct st as [out seen cs]. cbn. f_equal.
    f_equal; [by rewrite app_nil_r | set_solver].
Qed.

Lemma two_phases_run (ddgs : DDGS) (q : str) :
  two_phases ddgs q initial
  = (Ok (),
     mkState (section_news ddgs q ++ section_web ddgs q)
             (keys (raw_web ddgs q) ∪ keys (raw_news ddgs q))
             [CallNews q 5; CallText q 5]).
Proof.
  unfold two_phases. rewrite bind_run.
  unfold news_phase, web_phase. rewrite try_news_run, try_text_run.
  cbn [output seen_content calls initial app].
  rewrite (right_id_L ∅ (∪)). reflexivity.
Qed.

Lemma output_so_far_eq (ddgs : DDGS) (q : str) :
  output_so_far ddgs q = (section_news ddgs q ++ section_web ddgs q)%list.
Proof. unfold output_so_far. by rewrite two_phases_run. Qed.

Lemma phases_run (year : Z) (ddgs : DDGS) (q : str) :
  phases ddgs q year initial
  = (Ok (),
     mkState (digest_entries year ddgs q) (final_seen year ddgs q)
             (final_calls year ddgs q)).
Proof.
  unfold phases. rewrite bind_run.
  unfold news_phase at 1. rewrite try_news_run.
  rewrite bind_run. unfold web_phase at 1. rewrite try_text_run.
  rewrite bind_run. unfold get_output at 1.
  cbn [output seen_content calls initial app].
  rewrite (right_id_L ∅ (∪)).
  unfold digest_entries, final_seen, final_calls, section_year, kept_year,
    year_phase_runs.
  rewrite output_so_far_eq.
  change (section header_news format_news (hits_of (news ddgs q 5))
            (survivors ∅ (hits_of (news ddgs q 5))))
    with (section_news ddgs q).
  change (section header_web format_web (hits_of (text ddgs q 5))
            (survivors (keys (hits_of (news ddgs q 5)))
               (hits_of (text ddgs q 5))))
    with (section_web ddgs q).
  destruct (negb (mentions_year year _)).
  - unfold year_phase. rewrite try_news_run.
    cbn [output seen_content calls]. rewrite <- app_assoc. reflexivity.
  - cbn. by rewrite app_nil_r.
Qed.

Lemma run_ok (year : Z) (ddgs : DDGS) (q : str) :
  run (mkWorld year (Ok ddgs)) q
  = (Ok (digest year ddgs q),
     mkState (digest_entries year ddgs q) (final_seen year ddgs q)
             (final_calls year ddgs q)).
Proof.
  unfold run, search_web_M, try_except. rewrite bind_run.
  cbn [lift DDGS_new CURRENT_YEAR]. rewrite bind_run, phases_run, bind_run.
  unfold get_output, digest. cbn [output].
  by destruct (digest_entries year ddgs q).
Qed.

Lemma run_unavailable (year : Z) (e : Exception) (q : str) :
  run (mkWorld year (Raised e)) q = (Ok (search_error e), initial).
Proof. reflexivity. Qed.

(** ** What a loop lets through *)

Section FreshBy.
Context {A : Type} (key : A → str).
Implicit Types (seen : gset str) (l : list A).

Lemma fresh_by_app seen l1 l2 :
  fresh_by key seen (l1 ++ l2)
  = (fresh_by key seen l1
       ++ fresh_by key (list_to_set (key <$> l1) ∪ seen) l2)%list.
Proof.
  revert seen. induction l1 as [|a l1 IH]; intros seen; cbn [app fresh_by].
  - cbn. by rewrite (left_id_L ∅ (∪)).
  - case_bool_decide as Hin; rewrite IH; cbn [fmap list_fmap list_to_set app].
    + f_equal. f_equal. set_solver.
    + f_equal. f_equal. f_equal. set_solver.
Qed.

Lemma fresh_by_sublist seen l : fresh_by key seen l `sublist_of` l.
Proof.
  revert seen. induction l as [|a l IH]; intros seen; cbn [fresh_by].
  - constructor.
  - case_bool_decide; [apply sublist_cons | apply sublist_skip]; apply IH.
Qed.

Lemma fresh_by_not_seen seen l a :
  a ∈ fresh_by key seen l → key a ∉ seen.
Proof.
  revert seen. induction l as [|b l IH]; intros seen; cbn [fresh_by].
  - by intros ?%elem_of_nil.
  - case_bool_decide as Hin.
    + apply IH.
    + intros [->|Hl]%elem_of_cons; [done|].
      apply IH in Hl. set_solver.
Qed.

Lemma fresh_by_NoDup seen l : NoDup (key <$> fresh_by key seen l).
Proof.
  revert seen. induction l as [|b l IH]; intros seen; cbn [fresh_by].
  - constructor.
  - case_bool_decide as Hin; [apply IH|].
    cbn [fmap list_fmap]. constructor; [|apply IH].
    intros (a & Heq & Ha)%list_elem_of_fmap.
    apply fresh_by_not_seen in Ha. set_solver.
Qed.

Lemma elem_of_fresh_by seen l a :
  a ∈ fresh_by key seen l
  ↔ ∃ i, first_with_key key l i a ∧ key a ∉ seen.
Proof.
  unfold first_with_key.
  revert seen. induction l as [|b l IH]; intros seen; cbn [fresh_by].
  - split; [by intros ?%elem_of_nil | by intros (i & [? _] & _)].
  - case_bool_decide as Hin.
    + rewrite IH. split.
      * intros (i & [Hi Hfirst] & Hseen). exists (S i). repeat split; [done| |done].
        intros [|j] c Hj Hc; cbn in Hc.
        -- injection Hc as <-. congruence.
        -- apply (Hfirst j); [lia | done].
      * intros ([|i] & [Hi Hfirst] & Hseen); cbn in Hi.
        -- injection Hi as <-. done.
        -- exists i. repeat split; [done| |done].
           intros j c Hj Hc. apply (Hfirst (S j)); [lia | done].
    + rewrite elem_of_cons, IH. split.
      * intros [->|(i & [Hi Hfirst] & Hseen)].
        -- exists 0. repeat split; [|done]. intros j c Hj. lia.
        -- exists (S i). repeat split; [done| |set_solver].
           intros [|j] c Hj Hc; cbn in Hc.
           ++ injection Hc as <-. set_solver.
           ++ apply (Hfirst j); [lia | done].
      * intros ([|i] & [Hi Hfirst] & Hseen); cbn in Hi.
        -- injection Hi as <-. by left.
        -- right. exists i. repeat split; [done| |].
           ++ intros j c Hj Hc. apply (Hfirst (S j)); [lia | done].
           ++ assert (key b ≠ key a) by (apply (Hfirst 0); [lia | done]).
              set_solver.
Qed.

Lemma fresh_by_covers seen l a :
  a ∈ l → key a ∈ seen ∨ key a ∈ key <$> fresh_by key seen l.
Proof.
  revert seen. induction l as [|b l IH]; intros seen; cbn [fresh_by].
  - by intros ?%elem_of_nil.
  - intros [->|Hl]%elem_of_cons.
    + case_bool_decide; [by left|right]. cbn. by left.
    + case_bool_decide as Hin; [by apply IH|].
      destruct (IH ({[ key b ]} ∪ seen) Hl) as [Hs|Hf].
      * apply elem_of_union in Hs as [->%elem_of_singleton|Hs];
          [right; cbn; by left | by left].
      * right. cbn. by right.
Qed.

Lemma fresh_by_empty_cons l a : fresh_by key ∅ (a :: l) ≠ [].
Proof. cbn [fresh_by]. case_bool_decide as Hin; [set_solver | done]. Qed.
End FreshBy.

Lemma fresh_by_fmap {A B} (f : A → B) (key : B → str) (seen : gset str)
    (l : list A) :
  fresh_by key seen (f <$> l) = f <$> fresh_by (key ∘ f) seen l.
Proof.
  revert seen. induction l as [|a l IH]; intros seen; [done|].
  cbn [fmap list_fmap fresh_by compose].
  case_bool_decide; [apply IH|]. cbn [fmap list_fmap]. f_equal. apply IH.
Qed.

Lemma emitted_fresh (year : Z) (ddgs : DDGS) (q : str) :
  emitted year ddgs q = fresh_by entry_key ∅ (processed year ddgs q).
Proof.
  unfold emitted, processed. rewrite !fresh_by_app, !fresh_by_fmap.
  rewrite <- !list_fmap_compose, (right_id_L ∅ (∪)).
  change (entry_key ∘ pair NEWS) with content_key.
  change (entry_key ∘ pair WEB) with content_key.
  fold (keys (raw_news ddgs q)). fold (keys (raw_web ddgs q)).
  fold (survivors ∅ (raw_news ddgs q)).
  fold (survivors (keys (raw_news ddgs q)) (raw_web ddgs q)).
  do 2 f_equal. unfold kept_year.
  destruct (year_phase_runs year ddgs q); [|done].
  rewrite fresh_by_fmap. reflexivity.
Qed.

(** ** Facts about strings *)

Section StringFacts.
Implicit Types (s t needle hay sep : str).

Lemma append_nil t : "" ++ t = t.
Proof. reflexivity. Qed.

Lemma append_cons c s t : Str c s ++ t = Str c (s ++ t).
Proof. reflexivity. Qed.

Lemma append_assoc s t u : (s ++ t) ++ u = s ++ (t ++ u).
Proof.
  induction s as [|c s IH]; [done|]. by rewrite !append_cons, IH.
Qed.

Lemma prefix_append needle t : is_prefix needle (needle ++ t) = true.
Proof.
  induction needle as [|c needle IH]; [by destruct t|].
  rewrite append_cons. cbn [is_prefix]. by destruct (N.eq_dec c c).
Qed.

Lemma contains_prefix needle hay :
  is_prefix needle hay = true → contains needle hay = true.
Proof. intros H. destruct hay; cbn [contains]; by rewrite H. Qed.

Lemma contains_append needle s t : contains needle (s ++ needle ++ t) = true.
Proof.
  induction s as [|c s IH].
  - rewrite append_nil. apply contains_prefix, prefix_append.
  - rewrite append_cons. cbn [contains]. rewrite IH. apply orb_true_r.
Qed.

Lemma length_slice_to n s :
  len (slice_to n s) = Nat.min n (len s).
Proof.
  unfold slice_to. revert s. induction n as [|n IH]; intros [|c s]; cbn; try done.
  by rewrite IH.
Qed.

Lemma slice_to_prefix n s : ∃ rest, s = slice_to n s ++ rest.
Proof.
  unfold slice_to. revert s. induction n as [|n IH]; intros [|c s]; cbn.
  - by exists "".
  - by eexists.
  - by exists "".
  - destruct (IH s) as [rest Hrest]. exists rest.
    rewrite append_cons. by rewrite <- Hrest.
Qed.

Lemma concat_head sep c s (l : list str) :
  ∃ rest, join sep (Str c s :: l) = Str c rest.
Proof. destruct l; cbn; by eexists. Qed.

Lemma concat_app sep (a b : list str) :
  a ≠ [] → b ≠ [] →
  join sep (a ++ b)
  = join sep a ++ sep ++ join sep b.
Proof.
  intros Ha Hb. induction a as [|x a IH]; [done|].
  destruct a as [|y a].
  - destruct b; [done | reflexivity].
  - change (join sep ((x :: y :: a) ++ b))
      with (x ++ sep ++ join sep ((y :: a) ++ b)).
    rewrite IH by done.
    change (join sep (x :: y :: a))
      with (x ++ sep ++ join sep (y :: a)).
    by rewrite !append_assoc.
Qed.

Lemma concat_section_text (sec l : list str) :
  join blank (section_text sec ++ l) = join blank (sec ++ l).
Proof.
  destruct sec as [|x sec]; [done|]. cbn [section_text app].
  destruct l as [|y l]; [by rewrite app_nil_r|].
  change (join blank (x :: sec) :: y :: l)
    with ([join blank (x :: sec)] ++ (y :: l))%list.
  change (x :: (sec ++ y :: l))%list with ((x :: sec) ++ (y :: l))%list.
  by rewrite !concat_app.
Qed.

Lemma concat_section_text_mid (p sec l : list str) :
  join blank (p ++ section_text sec ++ l)
  = join blank (p ++ sec ++ l).
Proof.
  destruct sec as [|x sec]; [done|].
  destruct p as [|y p]; [rewrite !app_nil_l; apply concat_section_text|].
  rewrite !(concat_app blank (y :: p)) by done.
  by rewrite concat_section_text.
Qed.

Lemma concat_section_texts (a b c : list str) :
  join blank (section_text a ++ section_text b ++ section_text c)
  = join blank (a ++ b ++ c).
Proof.
  rewrite concat_section_text, concat_section_text_mid.
  rewrite <- (app_nil_r (section_text c)), !(assoc_L (++) a b).
  by rewrite concat_section_text_mid, app_nil_r.
Qed.
End StringFacts.

(** ** The run in terms of the backend's answers *)

Lemma search_web_ok (year : Z) (ddgs : DDGS) (q : str) :
  search_web (mkWorld year (Ok ddgs)) q = Ok (digest year ddgs q).
Proof. unfold search_web. by rewrite run_ok. Qed.

Lemma backend_calls_ok (year : Z) (ddgs : DDGS) (q : str) :
  backend_calls (mkWorld year (Ok ddgs)) q = final_calls year ddgs q.
Proof. unfold backend_calls. by rewrite run_ok. Qed.

Lemma output_ok (year : Z) (ddgs : DDGS) (q : str) :
  output (snd (run (mkWorld year (Ok ddgs)) q)) = digest_entries year ddgs q.
Proof. by rewrite run_ok. Qed.

Lemma no_hits_hits_of (r : result (list hit)) : no_hits r ↔ hits_of r = [].
Proof. by destruct r. Qed.

Lemma mentions_year_false (year : Z) (out : list str) :
  mentions_year year out = false
  ↔ ∀ line, line ∈ out → contains (str_int year) line = false.
Proof.
  unfold mentions_year. induction out as [|x out IH]; cbn [existsb].
  - split; [by intros _ line ?%elem_of_nil | done].
  - rewrite orb_false_iff, IH. split.
    + intros [Hx Hout] line [->|Hl]%elem_of_cons; [done | by apply Hout].
    + intros H. split; [apply H; by left|]. intros line Hl. apply H. by right.
Qed.

(** The run depends on the backend only through the hits of the three
    calls. *)
Lemma run_ext (year : Z) (b1 b2 : DDGS) (q : str) :
  raw_news b1 q = raw_news b2 q →
  raw_web b1 q = raw_web b2 q →
  raw_year year b1 q = raw_year year b2 q →
  run (mkWorld year (Ok b1)) q = run (mkWorld year (Ok b2)) q.
Proof.
  intros Hn Hw Hy. rewrite !run_ok.
  unfold digest, digest_entries, final_seen, final_calls, section_year,
    kept_year, year_phase_runs.
  rewrite !output_so_far_eq.
  unfold section_news, section_web, kept_news, kept_web.
  by rewrite Hn, Hw, Hy.
Qed.

Lemma kept_news_nil (ddgs : DDGS) (q : str) :
  kept_news ddgs q = [] → raw_news ddgs q = [].
Proof.
  unfold kept_news, survivors. destruct (raw_news ddgs q) as [|r rs]; [done|].
  by intros ?%fresh_by_empty_cons.
Qed.

Lemma keys_nil : keys [] = ∅.
Proof. reflexivity. Qed.

(** With no hit from any of the three calls, all three are made and the
    not-found message comes back. *)
Lemma silent_run (year : Z) (ddgs : DDGS) (q : str) :
  raw_news ddgs q = [] → raw_web ddgs q = [] → raw_year year ddgs q = [] →
  year_phase_runs year ddgs q = true
  ∧ digest_entries year ddgs q = []
  ∧ digest year ddgs q = not_found q
  ∧ final_calls year ddgs q
    = [CallNews q 5; CallText q 5; CallNews (year_query q year) 3].
Proof.
  intros Hn Hw Hy.
  assert (year_phase_runs year ddgs q = true) as Hruns.
  { unfold year_phase_runs. rewrite output_so_far_eq.
    unfold section_news, section_web. by rewrite Hn, Hw. }
  assert (digest_entries year ddgs q = []) as Hout.
  { unfold digest_entries, section_news, section_web, section_year.
    by rewrite Hn, Hw, Hy, Hruns. }
  split; [done|]. split; [done|]. split.
  - unfold digest. by rewrite Hout.
  - unfold final_calls. by rewrite Hruns.
Qed.

(** A non-empty [output] starts with a header, so its join does not start
    with the first letter of the not-found message. *)
Lemma digest_entries_head (year : Z) (ddgs : DDGS) (q : str) :
  digest_entries year ddgs q = []
  ∨ ∃ c s l, digest_entries year ddgs q = Str c s :: l ∧ c ≠ 78%N.
Proof.
  unfold digest_entries, section_news, section_web, section_year, section.
  destruct (raw_news ddgs q); [|right; by eexists _, _, _].
  destruct (raw_web ddgs q); [|right; by eexists _, _, _].
  destruct (year_phase_runs year ddgs q); [|by left].
  destruct (raw_year year ddgs q); [by left|right; by eexists _, _, _].
Qed.

Lemma digest_not_found (year : Z) (ddgs : DDGS) (q : str) :
  digest year ddgs q = not_found q ↔ digest_entries year ddgs q = [].
Proof.
  unfold digest.
  destruct (digest_entries_head year ddgs q) as [->|(c & s & l & -> & Hc)];
    [done|].
  split; [|done]. destruct (concat_head blank c s l) as [rest ->].
  intros [=]. done.
Qed.

Lemma digest_entries_nil (year : Z) (ddgs : DDGS) (q : str) :
  digest_entries year ddgs q = []
  ↔ raw_news ddgs q = [] ∧ raw_web ddgs q = [] ∧ raw_year year ddgs q = [].
Proof.
  split; [|by intros (Hn & Hw & Hy); apply silent_run].
  intros H.
  assert (section_news ddgs q = [] ∧ section_web ddgs q = []
          ∧ section_year year ddgs q = []) as (Hsn & Hsw & Hsy).
  { unfold digest_entries in H.
    apply app_eq_nil in H as [? [? ?]%app_eq_nil]. done. }
  assert (raw_news ddgs q = []) as Hn.
  { unfold section_news, section in Hsn. by destruct (raw_news ddgs q). }
  assert (raw_web ddgs q = []) as Hw.
  { unfold section_web, section in Hsw. by destruct (raw_web ddgs q). }
  split; [done|]. split; [done|].
  unfold section_year in Hsy.
  assert (year_phase_runs year ddgs q = true) as Hruns.
  { unfold year_phase_runs. rewrite output_so_far_eq, Hsn, Hsw. done. }
  rewrite Hruns in Hsy. unfold section in Hsy.
  by destruct (raw_year year ddgs q).
Qed.

(** ** Entries of [output] and the hits they come from *)

Lemma elem_of_section (header : str) (format : hit → str)
    (raw kept : list hit) (line : str) :
  line ∈ section header format raw kept →
  line = header ∨ ∃ r, r ∈ kept ∧ line = format r.
Proof.
  unfold section. destruct raw; [by intros ?%elem_of_nil|].
  intros [->|Hl]%elem_of_cons; [by left|right].
  apply list_elem_of_fmap in Hl as (r & -> & Hr). by exists r.
Qed.

Lemma kept_in_section (header : str) (format : hit → str)
    (raw kept : list hit) (r : hit) :
  kept `sublist_of` raw → r ∈ kept →
  format r ∈ section header format raw kept.
Proof.
  intros Hsub Hr. unfold section. destruct raw.
  - apply sublist_nil_r in Hsub as ->. by apply elem_of_nil in Hr.
  - right. by apply list_elem_of_fmap_2.
Qed.

Lemma kept_year_raw (year : Z) (ddgs : DDGS) (q : str) :
  kept_year year ddgs q `sublist_of` raw_year year ddgs q.
Proof.
  unfold kept_year. destruct (year_phase_runs year ddgs q);
    [apply fresh_by_sublist | apply sublist_nil_l].
Qed.

(** The line of every emitted hit is in the final [output]. *)
Lemma emitted_in_output (year : Z) (ddgs : DDGS) (q : str) (e : entry) :
  e ∈ emitted year ddgs q → format_entry e ∈ digest_entries year ddgs q.
Proof.
  unfold emitted, digest_entries. rewrite !elem_of_app, !list_elem_of_fmap.
  intros [(r & -> & Hr)|[(r & -> & Hr)|(r & -> & Hr)]]; cbn.
  - left. apply kept_in_section; [apply fresh_by_sublist | done].
  - right; left. apply kept_in_section; [apply fresh_by_sublist | done].
  - right; right. unfold section_year.
    destruct (year_phase_runs year ddgs q) eqn:Hruns.
    + apply kept_in_section; [apply kept_year_raw | done].
    + unfold kept_year in Hr. rewrite Hruns in Hr. by apply elem_of_nil in Hr.
Qed.

(** Every entry of the final [output] is a header or the line of a hit
    the loops went over. *)
Lemma output_entry_origin (year : Z) (ddgs : DDGS) (q line : str) :
  line ∈ digest_entries year ddgs q →
  line ∈ [header_news; header_web; header_year year]
  ∨ ∃ e, e ∈ processed year ddgs q ∧ line = format_entry e.
Proof.
  unfold digest_entries, processed. rewrite !elem_of_app.
  intros [Hl|[Hl|Hl]].
  - apply elem_of_section in Hl as [->|(r & Hr & ->)]; [left; set_solver|].
    right. exists (NEWS, r). split; [|done].
    apply elem_of_app. left. apply list_elem_of_fmap_2.
    eapply elem_of_sublist; [done | apply fresh_by_sublist].
  - apply elem_of_section in Hl as [->|(r & Hr & ->)]; [left; set_solver|].
    right. exists (WEB, r). split; [|done].
    apply elem_of_app. right. apply elem_of_app. left.
    apply list_elem_of_fmap_2.
    eapply elem_of_sublist; [done | apply fresh_by_sublist].
  - unfold section_year in Hl.
    destruct (year_phase_runs year ddgs q); [|by apply elem_of_nil in Hl].
    apply elem_of_section in Hl as [->|(r & Hr & ->)]; [left; set_solver|].
    right. exists (YEAR, r). split; [|done].
    apply elem_of_app. right. apply elem_of_app. right.
    apply list_elem_of_fmap_2.
    eapply elem_of_sublist; [done | apply kept_year_raw].
Qed.

(** ** Cross-phase deduplication *)

(** C1.  The final [output] is the three sections in phase order, each
    holding the lines of the hits in [emitted]; the returned digest is
    that [output] joined.  No two emitted hits share a dedup key, the key
    of every hit the loops went over is the key of an emitted one, and a
    hit is emitted exactly when it stands at the first position, in
    processing order (news, then web, then year-qualified), that carries
    its key: every later hit with that key is left out. *)
Theorem dedup_first_wins (year : Z) (ddgs : DDGS) (q : str) :
  let w := mkWorld year (Ok ddgs) in
  output (snd (run w q))
  = (section header_news format_news (raw_news ddgs q) (kept_news ddgs q)
       ++ section header_web format_web (raw_web ddgs q) (kept_web ddgs q)
       ++ (if year_phase_runs year ddgs q
           then section (header_year year) format_year
                  (raw_year year ddgs q) (kept_year year ddgs q)
           else []))%list
  ∧ search_web w q
    = Ok (match output (snd (run w q)) with
          | [] => not_found q
          | out => join blank out
          end)
  ∧ NoDup (entry_key <$> emitted year ddgs q)
  ∧ (∀ e, e ∈ processed year ddgs q
          → entry_key e ∈ entry_key <$> emitted year ddgs q)
  ∧ (∀ e, e ∈ emitted year ddgs q
          ↔ ∃ i, first_with_key entry_key (processed year ddgs q) i e)
  ∧ emitted year ddgs q `sublist_of` processed year ddgs q.
Proof.
  intros w. unfold search_web, w. rewrite run_ok. cbn [fst snd output].
  rewrite emitted_fresh.
  split; [reflexivity|].
  split; [unfold digest; by destruct (digest_entries year ddgs q)|].
  split; [|split; [|split]].
  - apply fresh_by_NoDup.
  - intros e He.
    destruct (fresh_by_covers entry_key ∅ _ e He) as [Hin|Hin]; [set_solver|done].
  - intros e. rewrite elem_of_fresh_by. split.
    + intros (i & Hi & _). by exists i.
    + intros [i Hi]. exists i. split; [done | set_solver].
  - apply fresh_by_sublist.
Qed.

(** Scenario B: one news hit and one web hit with the same body; only the
    news hit is shown, the web section keeps its header and nothing else. *)
Example scenario_B :
  emitted 2024 Samples.echo "q" = [(NEWS, Samples.alpha)]
  ∧ processed 2024 Samples.echo "q"
    = [(NEWS, Samples.alpha); (WEB, Samples.alpha_again)].
Proof. split; vm_compute; reflexivity. Qed.

(** ** The year-qualified retry *)

(** C2.  The news search for the query with the current year appended,
    asking for 3 results, is made exactly when no entry of [output], as
    the news and web phases left it, contains the decimal digits of
    [CURRENT_YEAR]; otherwise the two first calls are the only ones. *)
Theorem year_retry_iff (year : Z) (ddgs : DDGS) (q : str) :
  let w := mkWorld year (Ok ddgs) in
  let third := CallNews (year_query q year) 3 in
  (third ∈ backend_calls w q
   ↔ ∀ line, line ∈ output_so_far ddgs q
             → contains (str_int year) line = false)
  ∧ backend_calls w q
    = ([CallNews q 5; CallText q 5]
         ++ (if mentions_year year (output_so_far ddgs q) then []
             else [third]))%list.
Proof.
  intros w third. unfold w, third. rewrite backend_calls_ok.
  unfold final_calls, year_phase_runs.
  rewrite <- mentions_year_false.
  destruct (mentions_year year (output_so_far ddgs q)); cbn [negb app].
  - split; [|done]. split; [|done].
    intros Hin. apply elem_of_cons in Hin as [[=]|Hin].
    apply elem_of_cons in Hin as [[=]|Hin]. by apply elem_of_nil in Hin.
  - split; [|done]. split; [done|]. intros _. do 2 right. by left.
Qed.

(** Scenario A: a news hit carries the year, so two calls are made. *)
Example scenario_A :
  backend_calls (mkWorld 2024 (Ok Samples.mixed)) "q"
  = [CallNews "q" 5; CallText "q" 5].
Proof. vm_compute. reflexivity. Qed.

(** Scenario C: the news search fails and no web hit names the year, so
    the retry is made with the year appended to the query. *)
Example scenario_C :
  backend_calls (mkWorld 2026 (Ok Samples.news_down)) "q"
  = [CallNews "q" 5; CallText "q" 5; CallNews "q 2026" 3].
Proof. vm_compute. reflexivity. Qed.

(** ** The not-found message *)

(** C3.  When no hit of any phase survives deduplication, that is, when
    [output] ends up holding the line of none of the hits the loops went
    over, the not-found message is returned, quoting the query as it was
    passed. *)
Theorem not_found_when_nothing_survives (year : Z) (ddgs : DDGS) (q : str) :
  (∀ e, e ∈ processed year ddgs q →
        format_entry e ∉ output (snd (run (mkWorld year (Ok ddgs)) q))) →
  search_web (mkWorld year (Ok ddgs)) q
  = Ok ("No search results found for '" ++ q
          ++ "'. Try rephrasing or adding more context.").
Proof.
  rewrite output_ok, search_web_ok. intros Hnone.
  assert (emitted year ddgs q = []) as Hem.
  { destruct (emitted year ddgs q) as [|e em] eqn:Hem; [done|]. exfalso.
    assert (e ∈ emitted year ddgs q) as He by (rewrite Hem; by left).
    apply (Hnone e); [|by apply emitted_in_output].
    eapply elem_of_sublist; [done|].
    rewrite emitted_fresh. apply fresh_by_sublist. }
  unfold emitted in Hem.
  apply app_eq_nil in Hem as [Hn%fmap_nil_inv [Hw%fmap_nil_inv Hy%fmap_nil_inv]%app_eq_nil].
  apply kept_news_nil in Hn.
  assert (raw_web ddgs q = []) as Hw'.
  { unfold kept_web, survivors in Hw. rewrite Hn, keys_nil in Hw.
    destruct (raw_web ddgs q) as [|r rs]; [done|].
    by apply fresh_by_empty_cons in Hw. }
  assert (year_phase_runs year ddgs q = true) as Hruns.
  { unfold year_phase_runs. rewrite output_so_far_eq.
    unfold section_news, section_web. by rewrite Hn, Hw'. }
  assert (raw_year year ddgs q = []) as Hy'.
  { unfold kept_year, survivors in Hy.
    rewrite Hruns, Hn, Hw', keys_nil, (left_id_L ∅ (∪)) in Hy.
    destruct (raw_year year ddgs q) as [|r rs]; [done|].
    by apply fresh_by_empty_cons in Hy. }
  destruct (silent_run year ddgs q Hn Hw' Hy') as (_ & _ & -> & _).
  reflexivity.
Qed.

(** Scenario D: three empty answers. *)
Lemma not_found_when_nothing_survives_witness :
  search_web (mkWorld 2026 (Ok Samples.silent)) "who won"
  = Ok "No search results found for 'who won'. Try rephrasing or adding more context.".
Proof.
  apply (not_found_when_nothing_survives 2026 Samples.silent "who won").
  intros e He. vm_compute in He. by apply elem_of_nil in He.
Defined.

(** ** The tool boundary *)

(** C4.  Whatever the backend does, [search_web] returns a string and
    raises nothing.  When the backend object cannot be built, the str
    is the error message around [str(e)], and it is not the not-found
    message. *)
Theorem always_returns_a_string :
  (∀ (w : world) (q : str), ∃ s, search_web w q = Ok s)
  ∧ (∀ (year : Z) (e : Exception) (q : str),
       search_web (mkWorld year (Raised e)) q
       = Ok ("Search error: " ++ str_exc e ++ ". Please try a different query.")
       ∧ contains (str_exc e) (search_error e) = true
       ∧ search_error e ≠ not_found q).
Proof.
  split.
  - intros [year [ddgs|e]] q.
    + exists (digest year ddgs q). apply search_web_ok.
    + exists (search_error e). unfold search_web. by rewrite run_unavailable.
  - intros year e q. split; [unfold search_web; by rewrite run_unavailable|].
    split.
    + apply contains_append.
    + intros [=].
Qed.

(** C5.  A call that raises counts as a call that returned no hit: with
    the news call, the web call or the year-qualified call raising, the
    run (returned str, [output], [seen_content], calls made) is the
    run against the backend that answers the empty list there.  In every
    case a string is returned and the news and web calls are both made. *)
Theorem phase_failure_is_zero_hits (year : Z) (ddgs : DDGS) (q : str)
    (e : Exception) :
  let w := λ b, mkWorld year (Ok b) in
  let yq := year_query q year in
  run (w (set_news q 5 (Raised e) ddgs)) q
  = run (w (set_news q 5 (Ok []) ddgs)) q
  ∧ run (w (set_text q 5 (Raised e) ddgs)) q
    = run (w (set_text q 5 (Ok []) ddgs)) q
  ∧ run (w (set_news yq 3 (Raised e) ddgs)) q
    = run (w (set_news yq 3 (Ok []) ddgs)) q
  ∧ ∀ b, (∃ s, search_web (w b) q = Ok s)
         ∧ [CallNews q 5; CallText q 5] `prefix_of` backend_calls (w b) q.
Proof.
  intros w yq. unfold w, yq.
  split; [|split; [|split]].
  - apply run_ext; unfold raw_news, raw_web, raw_year, set_news; cbn [news text].
    + by rewrite !decide_True.
    + done.
    + by rewrite !decide_False by (intros [_ [=]]).
  - apply run_ext; unfold raw_news, raw_web, raw_year, set_text; cbn [news text].
    + done.
    + by rewrite !decide_True.
    + done.
  - apply run_ext; unfold raw_news, raw_web, raw_year, set_news; cbn [news text].
    + by rewrite !decide_False by (intros [_ [=]]).
    + done.
    + by rewrite !decide_True.
  - intros b. split.
    + exists (digest year b q). apply search_web_ok.
    + rewrite backend_calls_ok. unfold final_calls. by eexists.
Qed.

(** The news search is down: the web hit and the call log are those of a
    run in which the news search found nothing. *)
Example news_down_run :
  search_web (mkWorld 2026 (Ok Samples.news_down)) "q"
  = Ok (header_web ++ blank ++ format_web Samples.beta).
Proof. vm_compute. reflexivity. Qed.

(** ** Section headers *)

(** C6 as stated fails.  The news hit and the web hit share their body:
    the web hit is suppressed, yet the web header is in [output], above
    a section without a single hit line. *)
Lemma header_above_empty_section :
  ¬ (header_web ∈ output (snd (run (mkWorld 2024 (Ok Samples.echo)) "q"))
     → kept_web Samples.echo "q" ≠ []).
Proof.
  intros H. apply H; [|vm_compute; reflexivity].
  assert (output (snd (run (mkWorld 2024 (Ok Samples.echo)) "q"))
          = [header_news; format_news Samples.alpha; header_web]) as ->
    by (vm_compute; reflexivity).
  do 2 right. by left.
Qed.

(** C6, amended.  A header is appended exactly when the backend call of
    its phase was made and returned a non-empty list, whatever survives
    deduplication afterwards.  Under the news header there is always at
    least one hit line; the web and year headers may stand alone. *)
Theorem header_iff_backend_answered (year : Z) (ddgs : DDGS) (q : str) :
  output (snd (run (mkWorld year (Ok ddgs)) q))
  = (match raw_news ddgs q with
     | [] => []
     | _ => header_news :: (format_news <$> kept_news ddgs q)
     end
     ++ match raw_web ddgs q with
        | [] => []
        | _ => header_web :: (format_web <$> kept_web ddgs q)
        end
     ++ if year_phase_runs year ddgs q
        then match raw_year year ddgs q with
             | [] => []
             | _ => header_year year :: (format_year <$> kept_year year ddgs q)
             end
        else [])%list
  ∧ (kept_news ddgs q = [] ↔ raw_news ddgs q = []).
Proof.
  split; [by rewrite output_ok|].
  split; [apply kept_news_nil | by unfold kept_news; intros ->].
Qed.

(** ** Assembly of the digest *)

(** C7 as stated fails, whichever gap the wording means between a header
    and its first hit line: the code puts two blank lines before the web
    header (three line feeds in a row, none of them from a hit), and a
    year header after the web hit although the only year-qualified hit
    repeats the news hit. *)
Lemma sections_not_one_blank_line_apart :
  search_web (mkWorld 2026 (Ok Samples.mixed)) "q"
  ≠ Ok (spec_digest blank 2026 Samples.mixed "q")
  ∧ search_web (mkWorld 2026 (Ok Samples.mixed)) "q"
    ≠ Ok (spec_digest nl 2026 Samples.mixed "q")
  ∧ search_web (mkWorld 2026 (Ok Samples.mixed)) "q"
    = Ok (header_news ++ blank ++ format_news Samples.alpha
            ++ blank ++ nl ++ "=== WEB RESULTS ==="
            ++ blank ++ format_web Samples.beta
            ++ blank ++ nl ++ "=== 2026 SPECIFIC RESULTS ===").
Proof.
  split; [|split]; vm_compute; [intros [=] | intros [=] | reflexivity].
Qed.

(** C7, amended.  The digest is [output] joined by blank lines, and
    [output] is, in the order NEWS, WEB, YEAR-SPECIFIC, the section of
    each phase whose call returned a non-empty list: its header, then the
    lines of its surviving hits in the order the backend returned them.
    Joining the sections' own texts by blank lines gives the same str;
    as the web and year headers begin with a line feed, two blank lines
    precede them. *)
Theorem digest_assembly (year : Z) (ddgs : DDGS) (q : str) :
  let sn := section header_news format_news
              (raw_news ddgs q) (kept_news ddgs q) in
  let sw := section header_web format_web
              (raw_web ddgs q) (kept_web ddgs q) in
  let sy := if year_phase_runs year ddgs q
            then section (header_year year) format_year
                   (raw_year year ddgs q) (kept_year year ddgs q)
            else [] in
  search_web (mkWorld year (Ok ddgs)) q
  = Ok (match (sn ++ sw ++ sy)%list with
        | [] => not_found q
        | _ => join blank (sn ++ sw ++ sy)
        end)
  ∧ join blank (sn ++ sw ++ sy)
    = join blank (section_text sn ++ section_text sw ++ section_text sy)
  ∧ kept_news ddgs q `sublist_of` raw_news ddgs q
  ∧ kept_web ddgs q `sublist_of` raw_web ddgs q
  ∧ kept_year year ddgs q `sublist_of` raw_year year ddgs q
  ∧ is_prefix nl header_web = true
  ∧ is_prefix nl (header_year year) = true.
Proof.
  intros sn sw sy. split; [apply search_web_ok|]. split.
  - symmetry. apply concat_section_texts.
  - split; [apply fresh_by_sublist|]. split; [apply fresh_by_sublist|].
    split; [|done]. unfold kept_year.
    destruct (year_phase_runs year ddgs q);
      [apply fresh_by_sublist | apply sublist_nil_l].
Qed.

(** ** Hit lines *)

(** C8.  Every entry of the final [output] is a header or the line of a
    hit: a news line is ["[date] (source) title\nbody"], a year-qualified
    line ["[date] title\nbody"].  The date shown is the first 10
    characters of the hit's date (all of it when shorter), and the empty
    str when the hit has no date. *)
Theorem date_truncated_or_empty :
  (∀ (year : Z) (ddgs : DDGS) (q line : str),
     line ∈ output (snd (run (mkWorld year (Ok ddgs)) q)) →
     line ∈ [header_news; header_web; header_year year]
     ∨ ∃ e, e ∈ processed year ddgs q ∧ line = format_entry e)
  ∧ ∀ r : hit,
      format_entry (NEWS, r)
      = "[" ++ date_of r ++ "] (" ++ get r "source" ++ ") " ++ get r "title"
            ++ nl ++ get r "body"
      ∧ format_entry (YEAR, r)
        = "[" ++ date_of r ++ "] " ++ get r "title" ++ nl ++ get r "body"
      ∧ match r !! "date" with
        | Some d =>
            date_of r = slice_to 10 d
            ∧ len (date_of r) = Nat.min 10 (len d)
            ∧ ∃ rest, d = date_of r ++ rest
        | None => date_of r = ""
        end.
Proof.
  split.
  { intros year ddgs q line. rewrite output_ok. apply output_entry_origin. }
  intros r. split; [reflexivity|]. split; [reflexivity|].
  unfold date_of, get. destruct (r !! "date") as [d|]; [|reflexivity].
  assert ((if truthy d then slice_to 10 (default "" (Some d)) else "")
          = slice_to 10 d) as -> by (by destruct d).
  split; [reflexivity|]. split; [apply length_slice_to | apply slice_to_prefix].
Qed.

(** A dated news hit in a run: its line shows the first ten characters of
    the date. *)
Lemma date_truncated_or_empty_witness :
  "[2024-05-17] (wire) Alpha" ++ nl ++ "first story"
    ∈ [header_news; header_web; header_year 2024]
  ∨ ∃ e, e ∈ processed 2024 Samples.mixed "q"
         ∧ "[2024-05-17] (wire) Alpha" ++ nl ++ "first story" = format_entry e.
Proof.
  apply (proj1 date_truncated_or_empty 2024%Z Samples.mixed "q").
  assert (output (snd (run (mkWorld 2024 (Ok Samples.mixed)) "q"))
          = [header_news; "[2024-05-17] (wire) Alpha" ++ nl ++ "first story";
             header_web; format_web Samples.beta]) as ->
    by (vm_compute; reflexivity).
  right. by left.
Defined.

Example dated_news_line :
  format_news Samples.alpha = "[2024-05-17] (wire) Alpha" ++ nl ++ "first story".
Proof. vm_compute. reflexivity. Qed.

Example undated_year_line :
  format_year Samples.undated = "[] Gamma" ++ nl ++ "third story".
Proof. vm_compute. reflexivity. Qed.

(** ** No validation of the query *)

(** C9.  No query is turned away.  For every query string the result is
    the digest built from the backend's answers, and the news and web
    searches are made with the query as given; when none of the three
    calls yields a hit, all three are made and the not-found message
    quotes the query, empty or not. *)
Theorem query_not_validated (year : Z) (ddgs : DDGS) (q : str) :
  let w := mkWorld year (Ok ddgs) in
  (search_web w q = Ok (digest year ddgs q)
   ∧ [CallNews q 5; CallText q 5] `prefix_of` backend_calls w q)
  ∧ (no_hits (news ddgs q 5) →
     no_hits (text ddgs q 5) →
     no_hits (news ddgs (year_query q year) 3) →
     search_web w q
     = Ok ("No search results found for '" ++ q
             ++ "'. Try rephrasing or adding more context.")
     ∧ backend_calls w q
       = [CallNews q 5; CallText q 5; CallNews (q ++ " " ++ str_int year) 3]).
Proof.
  intros w. unfold w. rewrite search_web_ok, backend_calls_ok. split.
  - split; [done|]. unfold final_calls. by eexists.
  - intros Hn%no_hits_hits_of Hw%no_hits_hits_of Hy%no_hits_hits_of.
    destruct (silent_run year ddgs q Hn Hw Hy) as (_ & _ & -> & ->). done.
Qed.

(** The empty query, against a backend that finds nothing. *)
Lemma query_not_validated_witness :
  search_web (mkWorld 2026 (Ok Samples.silent)) ""
  = Ok "No search results found for ''. Try rephrasing or adding more context."
  ∧ backend_calls (mkWorld 2026 (Ok Samples.silent)) ""
    = [CallNews "" 5; CallText "" 5; CallNews " 2026" 3].
Proof.
  apply (query_not_validated 2026 Samples.silent ""); reflexivity.
Defined.

(** A query of blanks is searched for like any other. *)
Example blank_query_is_searched :
  search_web (mkWorld 2024 (Ok Samples.mixed)) "   "
  = search_web (mkWorld 2024 (Ok Samples.mixed)) "q"
  ∧ backend_calls (mkWorld 2024 (Ok Samples.mixed)) "   "
    = [CallNews "   " 5; CallText "   " 5].
Proof. split; vm_compute; reflexivity. Qed.

(** ** When the not-found message is returned *)

(** C10.  With the backend object built, the not-found message is
    returned exactly when each of the three calls raises or returns the
    empty list.  A call that was made and returned a hit leaves [output]
    non-empty, so the message is not returned, whatever deduplication
    does to the hits of that call. *)
Theorem not_found_iff_no_hits (year : Z) (ddgs : DDGS) (q : str) :
  let w := mkWorld year (Ok ddgs) in
  (search_web w q = Ok (not_found q)
   ↔ no_hits (news ddgs q 5) ∧ no_hits (text ddgs q 5)
     ∧ no_hits (news ddgs (year_query q year) 3))
  ∧ (∀ c, c ∈ backend_calls w q → hits_of (response ddgs c) ≠ [] →
          output (snd (run w q)) ≠ [] ∧ search_web w q ≠ Ok (not_found q)).
Proof.
  intros w. unfold w. rewrite search_web_ok, backend_calls_ok, output_ok.
  rewrite !no_hits_hits_of.
  fold (raw_news ddgs q) (raw_web ddgs q) (raw_year year ddgs q).
  rewrite <- digest_entries_nil, <- digest_not_found. split.
  - split; [by intros [=] | by intros ->].
  - intros c Hc Hhits.
    assert (digest_entries year ddgs q ≠ []) as Hne.
    { rewrite digest_entries_nil. intros (Hn & Hw & Hy).
      unfold final_calls in Hc.
      apply elem_of_app in Hc as [Hc|Hc].
      - apply elem_of_cons in Hc as [->|Hc]; [done|].
        apply elem_of_cons in Hc as [->|Hc]; [done|].
        by apply elem_of_nil in Hc.
      - destruct (year_phase_runs year ddgs q); [|by apply elem_of_nil in Hc].
        apply elem_of_cons in Hc as [->|Hc]; [done|].
        by apply elem_of_nil in Hc. }
    split; [done|]. rewrite <- digest_not_found in Hne. by intros [=].
Qed.

(** The web search answers with a hit, a duplicate of the news hit. *)
Lemma not_found_iff_no_hits_witness :
  output (snd (run (mkWorld 2024 (Ok Samples.echo)) "q")) ≠ []
  ∧ search_web (mkWorld 2024 (Ok Samples.echo)) "q" ≠ Ok (not_found "q").
Proof.
  apply (proj2 (not_found_iff_no_hits 2024 Samples.echo "q") (CallText "q" 5)).
  - assert (backend_calls (mkWorld 2024 (Ok Samples.echo)) "q"
            = [CallNews "q" 5; CallText "q" 5]) as ->
      by (vm_compute; reflexivity).
    right. by left.
  - vm_compute. intros [=].
Defined.

(** Every web hit suppressed, and still no not-found message. *)
Example suppressed_hits_still_answered :
  kept_web Samples.echo "q" = []
  ∧ search_web (mkWorld 2024 (Ok Samples.echo)) "q"
    = Ok (header_news ++ blank ++ format_news Samples.alpha
            ++ blank ++ header_web).
Proof. split; vm_compute; reflexivity. Qed.

(** ** Further properties of [search_web] *)

Section MoreStringFacts.
Implicit Types (s t needle hay : str).

Lemma length_append s t :
  len (s ++ t) = (len s + len t)%nat.
Proof.
  induction s as [|c s IH]; [done|]. rewrite append_cons. cbn [len].
  by rewrite IH.
Qed.

Lemma append_inj_l s1 s2 t : s1 ++ t = s2 ++ t → s1 = s2.
Proof.
  revert s2. induction s1 as [|c s1 IH]; intros [|d s2] H.
  - done.
  - apply (f_equal len) in H.
    rewrite append_nil, append_cons in H. cbn [len] in H.
    rewrite length_append in H. lia.
  - apply (f_equal len) in H.
    rewrite append_nil, append_cons in H. cbn [len] in H.
    rewrite length_append in H. lia.
  - rewrite !append_cons in H. injection H as -> H. f_equal. by apply IH.
Qed.

Lemma append_inj_r s t1 t2 : s ++ t1 = s ++ t2 → t1 = t2.
Proof.
  induction s as [|c s IH]; [done|]. rewrite !append_cons.
  intros [= H]. by apply IH.
Qed.

Lemma prefix_weaken needle s t :
  is_prefix needle s = true → is_prefix needle (s ++ t) = true.
Proof.
  revert s. induction needle as [|c needle IH]; intros s.
  - intros _. by destruct (s ++ t).
  - destruct s as [|d s]; [done|]. rewrite append_cons. cbn [is_prefix].
    destruct (N.eq_dec c d); [apply IH | done].
Qed.

Lemma contains_weaken_r needle s t :
  contains needle s = true → contains needle (s ++ t) = true.
Proof.
  induction s as [|c s IH].
  - cbn [contains]. rewrite orb_false_r. intros H. rewrite append_nil.
    destruct needle; [|done]. by destruct t.
  - rewrite append_cons. cbn [contains].
    intros [H|H]%orb_true_iff.
    + change (Str c (s ++ t)) with (Str c s ++ t).
      by rewrite (prefix_weaken _ _ _ H).
    + rewrite (IH H). apply orb_true_r.
Qed.

Lemma contains_weaken_l needle s t :
  contains needle t = true → contains needle (s ++ t) = true.
Proof.
  intros H. induction s as [|c s IH]; [done|].
  rewrite append_cons. cbn [contains]. rewrite IH. apply orb_true_r.
Qed.

Lemma contains_weaken needle s t u :
  contains needle t = true → contains needle (s ++ t ++ u) = true.
Proof. intros H. by apply contains_weaken_l, contains_weaken_r. Qed.
End MoreStringFacts.

Lemma digest_first_char (year : Z) (ddgs : DDGS) (q : str) :
  ∃ c rest, digest year ddgs q = Str c rest ∧ c ≠ 83%N.
Proof.
  unfold digest.
  destruct (digest_entries year ddgs q) as [|h l] eqn:Hout.
  - by eexists _, _.
  - assert (∃ c s, h = Str c s ∧ c ≠ 83%N) as (c & s & -> & Hc).
    { revert Hout.
      unfold digest_entries, section_news, section_web, section_year, section.
      destruct (raw_news ddgs q); [|intros [= <- _]; by eexists _, _].
      destruct (raw_web ddgs q); [|intros [= <- _]; by eexists _, _].
      destruct (year_phase_runs year ddgs q); [|done].
      destruct (raw_year year ddgs q); [done|intros [= <- _]; by eexists _, _]. }
    destruct (concat_head blank c s l) as [rest ->]. by eexists _, _.
Qed.

(** X1.  The "Search error" string is what comes back exactly when the
    backend object could not be built, and it then carries that
    exception's text.  Once the object exists, no failure of its searches
    is ever reported as an error. *)
Theorem search_error_iff_no_backend (w : world) (q : str) (e : Exception) :
  search_web w q = Ok (search_error e) ↔ DDGS_new w = Raised e.
Proof.
  destruct w as [year [ddgs|e']]; cbn [DDGS_new].
  - rewrite search_web_ok. split; [|done]. intros [= H].
    destruct (digest_first_char year ddgs q) as (c & rest & Hd & Hc).
    rewrite Hd in H. by injection H as -> _.
  - unfold search_web. rewrite run_unavailable. cbn [fst]. split.
    + intros [= H]. unfold search_error in H.
      apply append_inj_r in H. apply append_inj_l in H.
      destruct e, e'. cbn in H. by subst.
    + by intros [= ->].
Qed.

Lemma length_section (header : str) (format : hit → str)
    (raw kept : list hit) :
  kept `sublist_of` raw →
  (List.length (section header format raw kept) ≤ S (List.length raw))%nat.
Proof.
  intros Hsub%sublist_length. unfold section.
  destruct raw; cbn [List.length]; [lia|]. rewrite length_fmap. cbn in Hsub. lia.
Qed.

(** X2.  Against a backend that keeps to [max_results], the final
    [output] has at most 16 entries: three headers, and the lines of at
    most 5 news, 5 web and 3 year-qualified hits. *)
Theorem output_at_most_sixteen (year : Z) (ddgs : DDGS) (q : str) :
  honours_max_results ddgs →
  (List.length (output (snd (run (mkWorld year (Ok ddgs)) q))) ≤ 16)%nat
  ∧ (List.length (emitted year ddgs q) ≤ 13)%nat.
Proof.
  intros Hmax.
  assert (List.length (raw_news ddgs q) ≤ 5)%nat as Hn.
  { unfold raw_news. destruct (news ddgs q 5) as [rs|] eqn:E; cbn; [|lia].
    by apply (proj1 (Hmax q 5 rs)). }
  assert (List.length (raw_web ddgs q) ≤ 5)%nat as Hw.
  { unfold raw_web. destruct (text ddgs q 5) as [rs|] eqn:E; cbn; [|lia].
    by apply (proj2 (Hmax q 5 rs)). }
  assert (List.length (raw_year year ddgs q) ≤ 3)%nat as Hy.
  { unfold raw_year.
    destruct (news ddgs (year_query q year) 3) as [rs|] eqn:E; cbn; [|lia].
    by apply (proj1 (Hmax (year_query q year) 3 rs)). }
  split.
  - rewrite output_ok. unfold digest_entries. rewrite !length_app.
    pose proof (length_section header_news format_news _ _
                  (fresh_by_sublist content_key ∅ (raw_news ddgs q))) as H1.
    pose proof (length_section header_web format_web _ _
                  (fresh_by_sublist content_key (keys (raw_news ddgs q))
                     (raw_web ddgs q))) as H2.
    pose proof (length_section (header_year year) format_year _ _
                  (kept_year_raw year ddgs q)) as H3.
    unfold section_news, section_web, kept_news, kept_web, survivors.
    assert (List.length (section_year year ddgs q)
            ≤ S (List.length (raw_year year ddgs q)))%nat as H3'.
    { unfold section_year. destruct (year_phase_runs year ddgs q); [done|].
      cbn. lia. }
    lia.
  - unfold emitted. rewrite !length_app, !length_fmap.
    pose proof (sublist_length _ _
                  (fresh_by_sublist content_key ∅ (raw_news ddgs q))) as H1.
    pose proof (sublist_length _ _
                  (fresh_by_sublist content_key (keys (raw_news ddgs q))
                     (raw_web ddgs q))) as H2.
    pose proof (sublist_length _ _ (kept_year_raw year ddgs q)) as H3.
    unfold kept_news, kept_web, survivors. lia.
Qed.

Lemma output_at_most_sixteen_witness :
  (List.length (output (snd (run (mkWorld 2026 (Ok Leads.obedient)) "q"))) ≤ 16)%nat
  ∧ (List.length (emitted 2026 Leads.obedient "q") ≤ 13)%nat.
Proof.
  apply (output_at_most_sixteen 2026 Leads.obedient "q").
  intros q n rs. split; intros [= <-]; rewrite length_take; lia.
Defined.

Lemma fresh_by_keys {A} (key : A → str) (seen : gset str) (l : list A) :
  list_to_set (key <$> fresh_by key seen l) ∪ seen
  = list_to_set (key <$> l) ∪ seen.
Proof.
  revert seen. induction l as [|a l IH]; intros seen; [done|].
  cbn [fresh_by]. case_bool_decide as Hin; cbn [fmap list_fmap list_to_set].
  - rewrite IH. apply set_eq. intros x. set_unfold. naive_solver.
  - apply set_eq. intros x.
    assert (x ∈ list_to_set (key <$> fresh_by key ({[ key a ]} ∪ seen) l)
                  ∪ ({[ key a ]} ∪ seen)
            ↔ x ∈ list_to_set (key <$> l) ∪ ({[ key a ]} ∪ seen)) as IH'
      by (by rewrite IH).
    revert IH'. set_unfold. naive_solver.
Qed.

Lemma final_seen_processed (year : Z) (ddgs : DDGS) (q : str) :
  final_seen year ddgs q = list_to_set (entry_key <$> processed year ddgs q).
Proof.
  unfold final_seen, processed, keys.
  rewrite !fmap_app, !list_to_set_app_L.
  destruct (year_phase_runs year ddgs q);
    rewrite <- !list_fmap_compose;
    change (entry_key ∘ pair NEWS) with content_key;
    change (entry_key ∘ pair WEB) with content_key;
    [change (entry_key ∘ pair YEAR) with content_key|]; set_solver.
Qed.

(** X3.  When the run ends, [seen_content] holds exactly the dedup keys
    of the hits whose lines are in [output], which are the keys of all
    the hits the loops went over, and it has as many elements as there
    are hit lines. *)
Theorem seen_content_is_keys_shown (year : Z) (ddgs : DDGS) (q : str) :
  let st := snd (run (mkWorld year (Ok ddgs)) q) in
  seen_content st = list_to_set (entry_key <$> emitted year ddgs q)
  ∧ seen_content st = list_to_set (entry_key <$> processed year ddgs q)
  ∧ size (seen_content st) = List.length (emitted year ddgs q).
Proof.
  intros st. unfold st. rewrite run_ok. cbn [snd seen_content].
  assert (final_seen year ddgs q
          = list_to_set (entry_key <$> emitted year ddgs q)) as Hem.
  { rewrite final_seen_processed, emitted_fresh.
    pose proof (fresh_by_keys entry_key ∅ (processed year ddgs q)) as H.
    by rewrite !(right_id_L ∅ (∪)) in H. }
  split; [done|]. split; [apply final_seen_processed|].
  rewrite Hem, size_list_to_set, length_fmap; [done|].
  rewrite emitted_fresh. apply fresh_by_NoDup.
Qed.








(** Characters are counted, whatever their UTF-8 length: two bodies that
    part at the 98th character are two stories, and a date is cut after
    its tenth character. *)
Example characters_not_bytes :
  len Leads.curly = 96
  ∧ emitted 2030 Leads.near_twins "q"
    = [(NEWS, Leads.first_take); (NEWS, Leads.second_take)]
  ∧ date_of Leads.kanji_dated = "2024年5月17日"
  ∧ len (date_of Leads.kanji_dated) = 10.
Proof. repeat split; vm_compute; reflexivity. Qed.

(** The year stands in the ten characters shown of a date: no retry. *)
Example year_in_shown_date :
  date_of Leads.kanji_year_last = "5月17日 2026"
  ∧ backend_calls (mkWorld 2026 (Ok Leads.festival)) "q"
    = [CallNews "q" 5; CallText "q" 5].
Proof. split; vm_compute; reflexivity. Qed.

Lemma mentions_year_true (year : Z) (out : list str) (line : str) :
  line ∈ out → contains (str_int year) line = true →
  mentions_year year out = true.
Proof.
  intros Hin Hline. destruct (mentions_year year out) eqn:E; [done|].
  rewrite mentions_year_false in E. by rewrite (E line Hin) in Hline.
Qed.

(** X5.  The retry is skipped as soon as the digits of the year stand
    anywhere in a line already produced: in the title, body, source or
    shown date of a news hit, or in the title, body or link of a web
    hit, whatever they mean there. *)
Theorem year_digits_anywhere_skip_retry (year : Z) (ddgs : DDGS) (q : str)
    (r : hit) :
  (r ∈ kept_news ddgs q
   ∧ (contains (str_int year) (date_of r) = true
      ∨ contains (str_int year) (get r "source") = true
      ∨ contains (str_int year) (get r "title") = true
      ∨ contains (str_int year) (get r "body") = true))
  ∨ (r ∈ kept_web ddgs q
     ∧ (contains (str_int year) (get r "title") = true
        ∨ contains (str_int year) (get r "body") = true
        ∨ contains (str_int year) (get r "href") = true)) →
  backend_calls (mkWorld year (Ok ddgs)) q = [CallNews q 5; CallText q 5].
Proof.
  intros H. rewrite backend_calls_ok. unfold final_calls, year_phase_runs.
  rewrite output_so_far_eq.
  enough (mentions_year year (section_news ddgs q ++ section_web ddgs q) = true)
    as -> by done.
  destruct H as [[Hr Hf]|[Hr Hf]].
  - apply (mentions_year_true _ _ (format_news r)).
    + apply elem_of_app. left.
      apply kept_in_section; [apply fresh_by_sublist | done].
    + unfold format_news.
      destruct Hf as [Hf|[Hf|[Hf|Hf]]].
      * by apply contains_weaken_l, contains_weaken_r.
      * by do 3 apply contains_weaken_l; apply contains_weaken_r.
      * by do 5 apply contains_weaken_l; apply contains_weaken_r.
      * by do 7 apply contains_weaken_l.
  - apply (mentions_year_true _ _ (format_web r)).
    + apply elem_of_app. right.
      apply kept_in_section; [apply fresh_by_sublist | done].
    + unfold format_web.
      destruct Hf as [Hf|[Hf|Hf]].
      * by apply contains_weaken_r.
      * by do 2 apply contains_weaken_l; apply contains_weaken_r.
      * by do 5 apply contains_weaken_l.
Qed.

(** A road number that reads like the year. *)
Lemma year_digits_anywhere_skip_retry_witness :
  backend_calls (mkWorld 2026 (Ok Leads.roadworks)) "roadworks"
  = [CallNews "roadworks" 5; CallText "roadworks" 5].
Proof.
  apply (year_digits_anywhere_skip_retry 2026 Leads.roadworks "roadworks"
           Leads.road).
  left. split.
  - assert (kept_news Leads.roadworks "roadworks" = [Leads.road]) as ->
      by (vm_compute; reflexivity).
    by left.
  - right; right; left. vm_compute. reflexivity.
Defined.

(** ** The script, evaluated *)

Lemma ui_bind_run {A B} (m : UI A) (f : A → UI B) (p : page) :
  (m ≫= f) p
  = match m p with
    | (Next a, p') => f a p'
    | (Stopped, p') => (Stopped, p')
    | (Rerun, p') => (Rerun, p')
    | (Failed e, p') => (Failed e, p')
    end.
Proof. reflexivity. Qed.

Lemma ui_for_each_show {A} (f : A → event) (l : list A) (p : page) :
  ui_for_each l (λ x, show (f x)) p
  = (Next (), mkPage (session_state p) (shown p ++ (f <$> l))).
Proof.
  revert p. induction l as [|x l IH]; intros [s sh].
  - cbn. by rewrite app_nil_r.
  - cbn [ui_for_each]. rewrite ui_bind_run. unfold show at 1.
    rewrite IH. cbn [session_state shown fmap list_fmap].
    by rewrite <- app_assoc.
Qed.

Lemma get_agent_response_run (w : script_run) (a : AgentExecutor) (u : str)
    (s : session) (sh : list event) :
  get_agent_response w a u (mkPage s sh)
  = (Next (reply_to (str_lower w) (invoke w a u)),
     mkPage (mkSession (messages s)
               (if drops_agent (str_lower w) (invoke w a u) then None else agent s))
            (sh ++ [Invoke a u])).
Proof.
  unfold get_agent_response, ui_try, agent_invoke, reply_to, drops_agent.
  rewrite !ui_bind_run. unfold show at 1. cbn [session_state shown].
  destruct (invoke w a u) as [response|e]; [by destruct s|].
  cbn [raise]. destruct (contains "rate limit" (str_lower w (str_exc e)));
    [by destruct s|]. cbn [negb andb].
  destruct (contains "api key" (str_lower w (str_exc e))
            || contains "authentication" (str_lower w (str_exc e)));
    [|by destruct s].
  destruct s as [ms [a'|]]; reflexivity.
Qed.

Ltac ui_run :=
  repeat first
    [ rewrite ui_bind_run
    | rewrite ui_for_each_show
    | rewrite get_agent_response_run
    | progress cbn [has_messages has_agent get_agent set_agent del_agent
                    get_messages set_messages append_message show ui_pass
                    stop rerun raise ui_return initialize_agent answer
                    clear_chat_history session_state shown messages agent
                    mret UI_ret from_option id] ].

Lemma main_with_key_run (w : script_run) (k : str) (s : session)
    (sh : list event) :
  main_with_key w k (mkPage s sh) = visit_with_key w s k sh.
Proof.
  unfold main_with_key, visit_with_key, built, executor, history, submitted,
    sidebar, draw, answer, clear_chat_history, append_message,
    initialize_agent.
  destruct s as [ms ag].
  destruct ms as [l|], ag as [a|]; cbn [agent messages from_option id];
    try destruct (initialize_fails w k) as [e|];
    destruct (chat_input w) as [u|]; try destruct (truthy u);
    try destruct (drops_agent (str_lower w) (invoke w _ u)) eqn:Hdrop;
    destruct (button w); ui_run; rewrite ?Hdrop; ui_run;
    unfold show, rerun; cbn [session_state shown];
    rewrite <- ?app_assoc; cbn [app]; reflexivity.
Qed.

Lemma main_run (w : script_run) (s : session) (sh : list event) :
  main w (mkPage s sh) = visit w s sh.
Proof.
  unfold main, visit, usable_key, asked, ask_for_key.
  destruct (get_openai_api_key (run_settings w)) as [k|];
    cbn [key_truthy]; [destruct (truthy k)|].
  - rewrite ui_bind_run. cbn [ui_return mret UI_ret from_option id].
    rewrite main_with_key_run. by rewrite app_nil_r.
  - destruct (truthy (text_input w)); ui_run.
    + rewrite main_with_key_run. by rewrite <- !app_assoc.
    + by rewrite <- !app_assoc.
  - destruct (truthy (text_input w)); ui_run.
    + rewrite main_with_key_run. by rewrite <- !app_assoc.
    + by rewrite <- !app_assoc.
Qed.

(** ** Letter case *)

Section CaseFacts.
Implicit Types (s t needle hay : str).

Lemma ascii_lower_append s t :
  ascii_lower (s ++ t) = ascii_lower s ++ ascii_lower t.
Proof.
  induction s as [|c s IH]; [done|].
  rewrite append_cons. cbn [ascii_lower]. by rewrite IH, append_cons.
Qed.

Lemma ascii_lower_in_place : lowers_ascii_in_place ascii_lower.
Proof.
  intros s v t _. exists (ascii_lower s), (ascii_lower t).
  by rewrite !ascii_lower_append.
Qed.

Lemma all_ascii_lower s : all_ascii (ascii_lower s) = all_ascii s.
Proof.
  induction s as [|c s IH]; [done|]. cbn [ascii_lower all_ascii].
  rewrite IH. f_equal. unfold ascii_lower_char.
  destruct ((65 <=? c) && (c <=? 90))%N eqn:E; [|done].
  apply andb_true_iff in E as [_ E%N.leb_le].
  transitivity true; [apply N.ltb_lt | symmetry; apply N.ltb_lt]; lia.
Qed.

Lemma prefix_split needle hay :
  is_prefix needle hay = true → ∃ t, hay = needle ++ t.
Proof.
  revert hay. induction needle as [|c needle IH]; intros hay H.
  - by exists hay.
  - destruct hay as [|d hay]; [done|]. cbn [is_prefix] in H.
    destruct (N.eq_dec c d) as [->|]; [|done].
    destruct (IH hay H) as [t ->]. by exists t.
Qed.

Lemma contains_split needle hay :
  contains needle hay = true ↔ ∃ s t, hay = s ++ needle ++ t.
Proof.
  split.
  - induction hay as [|c hay IH]; cbn [contains].
    + rewrite orb_false_r. intros [t Ht]%prefix_split. by exists "", t.
    + intros [[t Ht]%prefix_split|H]%orb_true_iff.
      * by exists "", t.
      * destruct (IH H) as (s & t & ->). by exists (Str c s), t.
  - intros (s & t & ->). apply contains_append.
Qed.

(** A spelling of an ASCII [needle] in the text shows in its lower-case
    form, for any [lower] that treats ASCII characters in place. *)
Lemma mentions_lower (lower : str → str) needle msg :
  lowers_ascii_in_place lower →
  all_ascii needle = true →
  mentions needle msg →
  contains (ascii_lower needle) (lower msg) = true.
Proof.
  intros Hlower Hascii (v & Hv & (s & t & ->)%contains_split).
  assert (all_ascii v = true) as Hasciiv.
  { by rewrite <- all_ascii_lower, Hv, all_ascii_lower. }
  destruct (Hlower s v t Hasciiv) as (s' & t' & ->).
  rewrite Hv. apply contains_append.
Qed.
End CaseFacts.

Lemma drops_agent_iff (lower : str → str) (r : result (gmap str str)) :
  drops_agent lower r = true
  ↔ ∃ e, r = Raised e
         ∧ contains "rate limit" (lower (str_exc e)) = false
         ∧ (contains "api key" (lower (str_exc e)) = true
            ∨ contains "authentication" (lower (str_exc e)) = true).
Proof.
  unfold drops_agent. destruct r as [response|e].
  - split; [done | by intros (e & [=] & _)].
  - rewrite andb_true_iff, negb_true_iff, orb_true_iff. split.
    + intros [Hrate Hkey]. by exists e.
    + by intros (e' & [= <-] & Hrate & Hkey).
Qed.

(** ** Replies to a failed call of the agent *)

(** X6.  A failure whose text mentions a rate limit, in whatever letter
    case, is answered with the high-demand message and leaves the session
    as it was, cached executor included, even when the text also speaks
    of an API key.  The same holds for every text whose lower-case form
    contains "rate limit". *)
Theorem rate_limit_wins (w : script_run) (a : AgentExecutor) (u : str)
    (p : page) (e : Exception) :
  invoke w a u = Raised e →
  contains "rate limit" (str_lower w (str_exc e)) = true
  ∨ (lowers_ascii_in_place (str_lower w)
     ∧ mentions "rate limit" (str_exc e)) →
  get_agent_response w a u p
  = (Next "I'm currently experiencing high demand. Please try again in a moment.",
     mkPage (session_state p) (shown p ++ [Invoke a u])).
Proof.
  intros Hraise Hrate. destruct p as [s sh].
  assert (contains "rate limit" (str_lower w (str_exc e)) = true) as Hin.
  { destruct Hrate as [H|[Hlower Hm]]; [done|].
    by apply (mentions_lower _ "rate limit"). }
  rewrite get_agent_response_run, Hraise. unfold reply_to, drops_agent.
  rewrite Hin. by destruct s.
Qed.

Lemma rate_limit_wins_witness :
  get_agent_response (Visits.replies Visits.throttled Visits.from_env None false)
    (mkAgent "sk-env") "hi" (blank_page Visits.returning)
  = (Next "I'm currently experiencing high demand. Please try again in a moment.",
     mkPage Visits.returning [Invoke (mkAgent "sk-env") "hi"]).
Proof.
  apply (rate_limit_wins
           (Visits.replies Visits.throttled Visits.from_env None false)
           (mkAgent "sk-env") "hi" (blank_page Visits.returning)
           (mkException "Rate Limit reached; check your API key quota")).
  - reflexivity.
  - right. split; [apply ascii_lower_in_place|].
    exists "Rate Limit". split; vm_compute; reflexivity.
Defined.

(** X7.  [get_agent_response] always hands back a reply and never touches
    the stored messages.  It removes the cached executor from the session
    exactly when the call failed with a text whose lower-case form
    contains "api key" or "authentication" and does not contain
    "rate limit"; otherwise the executor stays. *)
Theorem cached_agent_dropped_iff (w : script_run) (a : AgentExecutor)
    (u : str) (p : page) :
  let p' := snd (get_agent_response w a u p) in
  (∃ reply, fst (get_agent_response w a u p) = Next reply)
  ∧ messages (session_state p') = messages (session_state p)
  ∧ (agent (session_state p') = agent (session_state p)
     ∨ agent (session_state p') = None)
  ∧ (agent (session_state p) ≠ None →
     (agent (session_state p') = None
      ↔ ∃ e, invoke w a u = Raised e
             ∧ contains "rate limit" (str_lower w (str_exc e)) = false
             ∧ (contains "api key" (str_lower w (str_exc e)) = true
                ∨ contains "authentication" (str_lower w (str_exc e)) = true))).
Proof.
  destruct p as [s sh]. rewrite get_agent_response_run.
  cbn [fst snd session_state messages agent].
  split; [by eexists|]. split; [done|]. split.
  - destruct (drops_agent (str_lower w) (invoke w a u)); [by right | by left].
  - intros Hcached. rewrite <- drops_agent_iff.
    destruct (drops_agent (str_lower w) (invoke w a u)); [done|].
    split; [by intros ? | done].
Qed.

Lemma cached_agent_dropped_iff_witness :
  agent (session_state (snd (get_agent_response
           (Visits.replies Visits.rejected Visits.from_env None false)
           (mkAgent "sk-env") "hi" (blank_page Visits.returning)))) = None.
Proof.
  apply (proj2 (proj2 (proj2 (cached_agent_dropped_iff
           (Visits.replies Visits.rejected Visits.from_env None false)
           (mkAgent "sk-env") "hi" (blank_page Visits.returning))))).
  - done.
  - exists (mkException "Incorrect API key provided").
    split; [reflexivity|]. split; [vm_compute; reflexivity|].
    left. vm_compute. reflexivity.
Defined.

(** ** Where the key comes from *)

(** X8.  [get_openai_api_key] returns [v] exactly when the secrets can be
    read and hold [v] under OPENAI_API_KEY, empty or not, or when they
    cannot be read or lack the entry and the environment variable is [v],
    not empty.  So an entry in the secrets always wins, and an empty one
    hides a key set in the environment. *)
Theorem api_key_source (c : settings) (v : str) :
  get_openai_api_key c = Some v
  ↔ (∃ s, secrets c = Ok s ∧ s !! "OPENAI_API_KEY" = Some v)
    ∨ ((∀ s, secrets c = Ok s → s !! "OPENAI_API_KEY" = None)
       ∧ environ c !! "OPENAI_API_KEY" = Some v ∧ v ≠ "").
Proof.
  unfold get_openai_api_key.
  destruct (secrets c) as [s|e].
  - destruct (s !! "OPENAI_API_KEY") as [v'|] eqn:Hs.
    + split.
      * intros [= ->]. left. by exists s.
      * intros [(s' & [= <-] & Hv)|(Hnone & _)]; [congruence|].
        specialize (Hnone s eq_refl). congruence.
    + split.
      * intros H. right. split; [by intros s' [= <-]|].
        destruct (environ c !! "OPENAI_API_KEY") as [k|]; [|done].
        destruct k; [done|]. by injection H as <-.
      * intros [(s' & [= <-] & Hv)|(_ & -> & Hv)]; [congruence|].
        by destruct v.
  - split.
    + intros H. right. split; [by intros s [=]|].
      destruct (environ c !! "OPENAI_API_KEY") as [k|]; [|done].
      destruct k; [done|]. by injection H as <-.
    + intros [(s' & [=] & _)|(_ & -> & Hv)]. by destruct v.
Qed.

(** The empty entry of the secrets file hides the key of the environment. *)
Example empty_secret_hides_environment :
  get_openai_api_key Visits.shadowed = Some ""
  ∧ environ Visits.shadowed !! "OPENAI_API_KEY" = Some "sk-env".
Proof. split; vm_compute; reflexivity. Qed.

(** ** A run of the script *)

Lemma session_after_visit (w : script_run) (s : session) :
  session_after w s = session_state (snd (visit w s [])).
Proof. unfold session_after, blank_page. by rewrite main_run. Qed.


(** X9.  Without a usable key (none found, or an empty one) and with
    nothing typed into the key field, the run stops after the warning,
    the hint and the key field: the session is left as it was, no
    executor is built, and a submitted message is neither answered nor
    stored. *)
Theorem no_usable_key_stops (w : script_run) (p : page) :
  key_truthy (get_openai_api_key (run_settings w)) = false →
  text_input w = "" →
  main w p
  = (Stopped, mkPage (session_state p) (shown p ++ [Warning; Info; TextInput])).
Proof.
  intros Hkey Htyped. destruct p as [s sh]. rewrite main_run.
  unfold visit, usable_key, asked. by rewrite Hkey, Htyped.
Qed.

(** The secrets hold an empty key, the environment a good one that is
    not looked at; the message "hi" is lost. *)
Lemma no_usable_key_stops_witness :
  main (mkRun Visits.shadowed "" (Some "hi") true (λ _, None)
          (λ _ _, Visits.fine) ascii_lower)
       (blank_page Visits.returning)
  = (Stopped, mkPage Visits.returning [Warning; Info; TextInput]).
Proof.
  apply (no_usable_key_stops
           (mkRun Visits.shadowed "" (Some "hi") true (λ _, None)
              (λ _ _, Visits.fine) ascii_lower)
           (blank_page Visits.returning)); reflexivity.
Defined.

(** X10.  [main] raises only what [initialize_agent] raises, and only in
    a run that finds no executor in the session.  The reads of
    [st.session_state.messages] and [st.session_state.agent] never fail:
    both entries are set before they are used. *)
Theorem main_fails_only_building_agent (w : script_run) (p p' : page)
    (e : Exception) :
  main w p = (Failed e, p') →
  agent (session_state p) = None
  ∧ agent (session_state p') = None
  ∧ ∃ k, initialize_fails w k = Some e
         ∧ last (shown p') = Some (Initialize k).
Proof.
  destruct p as [s sh]. rewrite main_run. unfold visit.
  destruct (usable_key w) as [k|]; [|done].
  unfold visit_with_key, built. cbn [session_state shown].
  destruct (agent s) as [a|] eqn:Hag.
  - destruct (initialize_fails w k), (button w); done.
  - destruct (initialize_fails w k) as [e'|] eqn:Hinit;
      [|destruct (button w); done].
    intros [= <- <-]. cbn [session_state shown agent].
    split; [done|]. split; [done|]. exists k. split; [done|].
    apply last_Some. by exists ((sh ++ asked w)
                                  ++ [Spinner "Initializing the knowledge bot..."])%list;
      rewrite <- !app_assoc.
Qed.

Lemma main_fails_only_building_agent_witness :
  agent (session_state (blank_page new_session)) = None
  ∧ agent (session_state
             (mkPage (mkSession (Some []) None)
                [Spinner "Initializing the knowledge bot..."; Initialize "sk-env"]))
    = None
  ∧ ∃ k, initialize_fails Visits.broken k
         = Some (mkException "model not available")
         ∧ last (shown (mkPage (mkSession (Some []) None)
                          [Spinner "Initializing the knowledge bot...";
                           Initialize "sk-env"]))
           = Some (Initialize k).
Proof.
  apply (main_fails_only_building_agent Visits.broken (blank_page new_session)).
  vm_compute. reflexivity.
Defined.




Lemma exchanges_snoc (l : list message) (u r : str) :
  exchanges l →
  exchanges (l ++ [mkMessage "user" u; mkMessage "assistant" r]).
Proof.
  revert l. fix IH 1. intros [|x [|y l]]; cbn [app exchanges].
  - done.
  - done.
  - intros (Hx & Hy & Hl). split; [done|]. split; [done|]. by apply IH.
Qed.

Lemma session_after_exchanges (w : script_run) (s : session) :
  exchanges (default [] (messages s)) →
  exchanges (default [] (messages (session_after w s))).
Proof.
  intros Hs. rewrite session_after_visit. unfold visit.
  destruct (usable_key w) as [k|]; [|done].
  unfold visit_with_key, history.
  destruct (agent s) as [a|]; destruct (initialize_fails w k) as [e|];
    try done; destruct (button w); try done;
    cbn [snd session_state messages from_option id];
    destruct (submitted w) as [u|]; try done; by apply exchanges_snoc.
Qed.

(** ** Runs in succession *)

(** X12.  Whatever happens in a succession of runs of the script from a
    new session, the stored history is always a sequence of exchanges: a
    user message followed by the assistant's reply to it.  No run leaves
    a question without its reply. *)
Theorem history_is_exchanges (ws : list script_run) :
  exchanges (default [] (messages (session_after_all ws new_session))).
Proof.
  assert (∀ s, exchanges (default [] (messages s)) →
               exchanges (default [] (messages (session_after_all ws s))))
    as Hinv.
  { induction ws as [|w ws IH]; intros s Hs; [done|].
    cbn [session_after_all]. by apply IH, session_after_exchanges. }
  by apply Hinv.
Qed.

(** Three answered messages, one of them with an error reply. *)
Example three_exchanges :
  messages (session_after_all
              [Visits.replies Visits.fine Visits.from_env (Some "hi") false;
               Visits.replies Visits.throttled Visits.from_env (Some "again") false;
               Visits.replies Visits.fine Visits.from_env None false]
              new_session)
  = Some [mkMessage "user" "hi"; mkMessage "assistant" "Hello!";
          mkMessage "user" "again"; mkMessage "assistant" high_demand].
Proof. vm_compute. reflexivity. Qed.

(** X13.  A run that finds an executor in the session builds no other:
    every call it makes goes to that executor, whatever key the run
    itself has found, and at its end the session holds that executor or
    none. *)
Theorem cached_agent_is_reused (w : script_run) (s : session)
    (a : AgentExecutor) :
  agent s = Some a →
  let p' := snd (main w (blank_page s)) in
  (∀ k, Initialize k ∉ shown p')
  ∧ (∀ a' u, Invoke a' u ∈ shown p' → a' = a)
  ∧ (agent (session_state p') = Some a ∨ agent (session_state p') = None).
Proof.
  intros Hag p'.
  set (ok := λ e : event,
         match e with
         | Initialize _ => False
         | Invoke a' _ => a' = a
         | _ => True
         end).
  assert (Forall ok (shown p')
          ∧ (agent (session_state p') = Some a
             ∨ agent (session_state p') = None)) as [Hok Hagent].
  { unfold p', blank_page. rewrite main_run. unfold visit.
    assert (Forall ok (asked w)) as Hasked.
    { unfold asked. destruct (key_truthy _); repeat constructor. }
    assert (Forall ok (draw <$> history s)) as Hdraw.
    { apply Forall_fmap, Forall_true. by intros []. }
    destruct (usable_key w) as [k|]; cbn [snd session_state shown];
      [|split; [done | by left]].
    unfold visit_with_key, built, executor, sidebar. rewrite Hag.
    cbn [from_option id].
    destruct (initialize_fails w k) as [e|];
      destruct (button w); cbn [snd session_state shown agent];
      destruct (submitted w) as [u|];
      try destruct (drops_agent (str_lower w) (invoke w a u));
      (split; [|auto]);
      rewrite !Forall_app; repeat split; try done; repeat constructor. }
  split; [|split; [|done]].
  - intros k Hin. by apply (proj1 (Forall_forall _ _) Hok) in Hin.
  - intros a' u Hin. by apply (proj1 (Forall_forall _ _) Hok) in Hin.
Qed.

(** The executor was built on "sk-env"; the environment now says
    "sk-new", and the call still goes to the first one. *)
Lemma cached_agent_is_reused_witness :
  Invoke (mkAgent "sk-env") "hi"
    ∈ shown (snd (main (Visits.replies Visits.fine Visits.other_env (Some "hi") false)
                       (blank_page Visits.returning)))
  ∧ (∀ a' u,
       Invoke a' u
         ∈ shown (snd (main (Visits.replies Visits.fine Visits.other_env (Some "hi") false)
                            (blank_page Visits.returning)))
       → a' = mkAgent "sk-env").
Proof.
  split.
  - vm_compute. do 5 right. by left.
  - apply (cached_agent_is_reused
             (Visits.replies Visits.fine Visits.other_env (Some "hi") false)
             Visits.returning (mkAgent "sk-env")).
    reflexivity.
Defined.

(** X14.  A run in which the button is pressed never ends normally.  When
    it gets as far as the button, it ends in a rerun with an empty
    stored history, also when a message was submitted and answered in
    that same run; the executor's memory is cleared exactly when the
    session still holds an executor; and what follows the button in the
    sidebar is not drawn. *)
Theorem clear_button_empties_history (w : script_run) (s : session) :
  button w = true →
  let r := main w (blank_page s) in
  fst r ≠ Next ()
  ∧ (fst r = Rerun →
     messages (session_state (snd r)) = Some []
     ∧ (∀ a, MemoryClear a ∈ shown (snd r)
             ↔ agent (session_state (snd r)) = Some a)
     ∧ Caption ∉ shown (snd r)).
Proof.
  intros Hpressed r. unfold r, blank_page. rewrite main_run. unfold visit.
  destruct (usable_key w) as [k|]; [|by split].
  unfold visit_with_key. rewrite Hpressed.
  set (quiet := λ e : event,
         match e with
         | MemoryClear _ | Caption => False
         | _ => True
         end).
  assert (Forall quiet (asked w)) as Hasked.
  { unfold asked. destruct (key_truthy _); repeat constructor. }
  assert (Forall quiet (draw <$> history s)) as Hdraw.
  { apply Forall_fmap, Forall_true. by intros []. }
  assert (Forall quiet (built s k)) as Hbuilt.
  { unfold built. destruct (agent s); repeat constructor. }
  assert (∀ (ag : option AgentExecutor) (before : list event),
            Forall quiet before →
            (∀ a, MemoryClear a
                    ∈ (before ++ match ag with
                                 | Some a' => [MemoryClear a']
                                 | None => []
                                 end)%list
                  ↔ ag = Some a)
            ∧ Caption ∉ (before ++ match ag with
                                   | Some a' => [MemoryClear a']
                                   | None => []
                                   end)%list) as Htail.
  { intros ag before Hq. rewrite Forall_forall in Hq. split.
    - intros a. rewrite elem_of_app. split.
      + intros [Hin%Hq|Hin]; [done|].
        destruct ag as [a'|]; [|by apply elem_of_nil in Hin].
        apply list_elem_of_singleton in Hin. congruence.
      + intros ->. right. by left.
    - rewrite elem_of_app. intros [Hin%Hq|Hin]; [done|].
      destruct ag as [a'|]; [|by apply elem_of_nil in Hin].
      by apply list_elem_of_singleton in Hin. }
  destruct (agent s) as [a|] eqn:Hag;
    destruct (initialize_fails w k) as [e|]; cbn [fst snd]; try by split.
  all: split; [done|]; intros _; cbn [session_state shown messages agent];
    (split; [done|]);
    rewrite !(assoc_L (++));
    apply Htail; rewrite !Forall_app; repeat split; try done;
    try (destruct (submitted w); repeat constructor);
    repeat constructor.
Qed.

(** A message and the button in one run: answered, and forgotten. *)
Lemma clear_button_empties_history_witness :
  fst (main (Visits.replies Visits.fine Visits.from_env (Some "hi") true)
            (blank_page Visits.returning)) ≠ Next ()
  ∧ (fst (main (Visits.replies Visits.fine Visits.from_env (Some "hi") true)
               (blank_page Visits.returning)) = Rerun →
     messages (session_state
                 (snd (main (Visits.replies Visits.fine Visits.from_env (Some "hi") true)
                            (blank_page Visits.returning)))) = Some []
     ∧ (∀ a, MemoryClear a
               ∈ shown (snd (main (Visits.replies Visits.fine Visits.from_env
                                     (Some "hi") true)
                                  (blank_page Visits.returning)))
             ↔ agent (session_state
                        (snd (main (Visits.replies Visits.fine Visits.from_env
                                      (Some "hi") true)
                                   (blank_page Visits.returning)))) = Some a)
     ∧ Caption ∉ shown (snd (main (Visits.replies Visits.fine Visits.from_env
                                     (Some "hi") true)
                                  (blank_page Visits.returning)))).
Proof.
  apply (clear_button_empties_history
           (Visits.replies Visits.fine Visits.from_env (Some "hi") true)
           Visits.returning).
  reflexivity.
Defined.


